(** * System health monitor: threshold evaluation, collection, report and
      run loop of [script/systemm_monitor.py], embedded and verified.

    The embedding follows the Python source: floats are IEEE binary64
    values ([spec_float] at precision 53), integers are [Z], strings are
    byte strings, the thresholds dictionary is a finite map, the disk
    dictionary is an insertion-ordered association list, exceptions are
    an error type threaded through a small monad, and console/log output
    is an explicit trace of events. *)

From Stdlib Require Import ZArith QArith Ascii String DecimalString SpecFloat.
From Stdlib Require Import Sorted.
From stdpp Require Import gmap strings list sorting.

Local Open Scope Z_scope.
#[local] Set Warnings "-register-all".

(** ** Python runtime values *)

Module Py.

(** Exceptions that the modelled code can raise. *)
Inductive exn :=
  | KeyError (key : string)
  | TypeError
  | ValueError
  | ZeroDivisionError
  | OverflowError
  | PermissionError
  | OSError
  | JSONDecodeError
  | KeyboardInterrupt.

Inductive result (A : Type) :=
  | Ok (a : A)
  | Raise (e : exn).
Arguments Ok {A} a.
Arguments Raise {A} e.

#[export] Instance result_ret : MRet result := fun A a => Ok a.
#[export] Instance result_fmap : FMap result := fun A B f m =>
  match m with
  | Ok a => Ok (f a)
  | Raise e => Raise e
  end.
#[export] Instance result_bind : MBind result := fun A B f m =>
  match m with
  | Ok a => f a
  | Raise e => Raise e
  end.

(** A Python float is a binary64 value. *)
Definition float := spec_float.
Definition prec : Z := 53.
Definition emax : Z := 1024.

(** Values that [json.load] can produce (and so can sit in a dictionary
    loaded from the configuration file). *)
Inductive value :=
  | PyNone
  | PyBool (b : bool)
  | PyInt (z : Z)
  | PyFloat (f : float)
  | PyStr (s : string)
  | PyList (items : list value)
  | PyDict (items : list (string * value)).

(** *** Exact numeric value

    Python compares numbers by their exact mathematical value, also
    between [int] and [float]; a NaN is unordered with everything.  On
    two floats this is the IEEE comparison ([float_compare_ieee] below). *)
Inductive xreal :=
  | XNegInf
  | XFin (q : Q)
  | XPosInf.

Definition dyadic (m e : Z) : Q :=
  if 0 <=? e then inject_Z (m * 2 ^ e) else Qmake m (Z.to_pos (2 ^ (- e))).

Definition float_value (f : float) : option xreal :=
  match f with
  | S754_nan => None
  | S754_infinity s => Some (if s then XNegInf else XPosInf)
  | S754_zero _ => Some (XFin 0%Q)
  | S754_finite s m e => Some (XFin (dyadic (if s then Zneg m else Zpos m) e))
  end.

(** The numeric value of a Python object, [Raise TypeError] for the
    objects that do not order against a number. *)
Definition num_value (v : value) : result (option xreal) :=
  match v with
  | PyBool b => Ok (Some (XFin (inject_Z (if b then 1 else 0))))
  | PyInt z => Ok (Some (XFin (inject_Z z)))
  | PyFloat f => Ok (float_value f)
  | PyNone | PyStr _ | PyList _ | PyDict _ => Raise TypeError
  end.

Definition xreal_compare (x y : xreal) : comparison :=
  match x, y with
  | XNegInf, XNegInf => Eq
  | XNegInf, _ => Lt
  | _, XNegInf => Gt
  | XPosInf, XPosInf => Eq
  | XPosInf, _ => Gt
  | _, XPosInf => Lt
  | XFin p, XFin q => Qcompare p q
  end.

Definition opt_compare (x y : option xreal) : option comparison :=
  match x, y with
  | Some a, Some b => Some (xreal_compare a b)
  | _, _ => None
  end.

(** [a > b], [a < b] and [a == b] on numeric values. *)
Definition opt_gt (x y : option xreal) : bool :=
  match opt_compare x y with Some Gt => true | _ => false end.
Definition opt_lt (x y : option xreal) : bool :=
  match opt_compare x y with Some Lt => true | _ => false end.
Definition opt_eq (x y : option xreal) : bool :=
  match opt_compare x y with Some Eq => true | _ => false end.

(** [a > b] between a number and an arbitrary object: a [TypeError] when
    the right operand is not a number. *)
Definition gt (a b : value) : result bool :=
  x ← num_value a; y ← num_value b; Ok (opt_gt x y).

(** *** Integer and float arithmetic *)

(** [float(n)] for an [int] that fits: correctly rounded. *)
Definition float_of_Z (z : Z) : float := binary_normalize prec emax z 0 false.

(** Magnitudes at or above this bound round to infinity under
    round-half-even: [2^1024 - 2^970]. *)
Definition overflow_bound : Z := 2 ^ 1024 - 2 ^ 970.

(** [a / b] on two [int]s: the correctly rounded quotient of the exact
    integers, [ZeroDivisionError] for a zero divisor, [OverflowError]
    when the quotient does not fit a float. *)
Definition int_truediv (a b : Z) : result float :=
  if b =? 0 then Raise ZeroDivisionError
  else if a =? 0 then Ok (S754_zero (b <? 0))
  else if overflow_bound * Z.abs b <=? Z.abs a then Raise OverflowError
  else Ok (SFdiv prec emax
             (S754_finite (a <? 0) (Z.to_pos (Z.abs a)) 0)
             (S754_finite (b <? 0) (Z.to_pos (Z.abs b)) 0)).

(** [x * n] for a float [x] and an [int] [n] that fits a float. *)
Definition float_mul_int (x : float) (n : Z) : float :=
  SFmul prec emax x (float_of_Z n).

(** Nearest integer to [n / d] ([0 <= n], [0 < d]), ties to even. *)
Definition round_half_even (n d : Z) : Z :=
  let q := n / d in
  let r := n mod d in
  match 2 * r ?= d with
  | Lt => q
  | Gt => q + 1
  | Eq => if Z.even q then q else q + 1
  end.

(** Nearest integer to [m * 2^e * k], ties to even. *)
Definition scaled_round (m : positive) (e k : Z) : Z :=
  if 0 <=? e then Zpos m * 2 ^ e * k
  else round_half_even (Zpos m * k) (2 ^ (- e)).

(** [round(x, 2)]: the float nearest to the decimal that is nearest to
    [x] at two places. *)
Definition round2 (x : float) : float :=
  match x with
  | S754_finite s m e =>
      match scaled_round m e 100 with
      | Zpos d => SFdiv prec emax (S754_finite s d 0) (S754_finite false 100 0)
      | _ => S754_zero s
      end
  | _ => x
  end.

(** *** Text rendering *)

Definition nat_str (n : Z) : string := NilZero.string_of_uint (N.to_uint (Z.to_N n)).

(** [str(n)] for an [int]. *)
Definition int_str (z : Z) : string :=
  if z <? 0 then "-" +:+ nat_str (- z) else nat_str z.

Definition sign_str (s : bool) : string := if s then "-" else "".

(** [format(x, '.1f')]: the exact value correctly rounded to one decimal. *)
Definition format_1f (x : float) : string :=
  match x with
  | S754_nan => "nan"
  | S754_infinity s => sign_str s +:+ "inf"
  | S754_zero s => sign_str s +:+ "0.0"
  | S754_finite s m e =>
      let n := scaled_round m e 10 in
      sign_str s +:+ nat_str (n / 10) +:+ "." +:+ nat_str (n mod 10)
  end.

(** *** [repr] of a float: the shortest decimal that reads back as the
    same binary64 value, nearest to it among the shortest. *)

(** [d * 10^k] against [x * 2^e], exactly. *)
Definition cmp_dec_bin (d k x e : Z) : comparison :=
  (d * 10 ^ Z.max k 0 * 2 ^ Z.max (- e) 0
   ?= x * 2 ^ Z.max e 0 * 10 ^ Z.max (- k) 0).

(** [floor (m * 2^e / 10^k)]. *)
Definition floor_dec (m e k : Z) : Z :=
  (m * 2 ^ Z.max e 0 * 10 ^ Z.max (- k) 0)
  / (10 ^ Z.max k 0 * 2 ^ Z.max (- e) 0).

(** The decimal exponent [k] with [10^k <= m * 2^e < 10^(k+1)], from an
    estimate by the binary length. *)
Fixpoint adjust_log10 (fuel : nat) (m e k : Z) : Z :=
  match fuel with
  | O => k
  | S fuel' =>
      let d := floor_dec m e k in
      if d =? 0 then adjust_log10 fuel' m e (k - 1)
      else if 10 <=? d then adjust_log10 fuel' m e (k + 1)
      else k
  end.

Definition log10_floor (m : positive) (e : Z) : Z :=
  adjust_log10 4 (Zpos m) e ((Zpos (digits2_pos m) + e - 1) * 30103 / 100000).

(** Does [d * 10^k] read back as the float [m * 2^e]?  The rounding
    interval reaches half-way to each neighbour (the lower neighbour is
    twice as near just above a power of two) and includes its ends when
    the mantissa is even. *)
Definition reads_back (m : positive) (e d k : Z) : bool :=
  let boundary := (Zpos m =? 2 ^ 52) && (-1074 <? e) in
  let lo := 4 * Zpos m - (if boundary then 1 else 2) in
  let hi := 4 * Zpos m + 2 in
  let even := Z.even (Zpos m) in
  match cmp_dec_bin d k lo (e - 2) with
  | Gt => true
  | Eq => even
  | Lt => false
  end
  &&
  match cmp_dec_bin d k hi (e - 2) with
  | Lt => true
  | Eq => even
  | Gt => false
  end.

(** Digits [d] and exponent [k] of the shortest decimal [d * 10^k],
    trying one more digit at each step. *)
Fixpoint shortest (fuel : nat) (m : positive) (e k : Z) : Z * Z :=
  let d0 := floor_dec (Zpos m) e k in
  let d1 := d0 + 1 in
  match fuel with
  | O => (d0, k)
  | S fuel' =>
      match reads_back m e d0 k, reads_back m e d1 k with
      | true, true =>
          match cmp_dec_bin (2 * d0 + 1) k (2 * Zpos m) e with
          | Gt => (d0, k)
          | Lt => (d1, k)
          | Eq => if Z.even d0 then (d0, k) else (d1, k)
          end
      | true, false => (d0, k)
      | false, true => (d1, k)
      | false, false => shortest fuel' m e (k - 1)
      end
  end.

Fixpoint strip_zeros (fuel : nat) (d k : Z) : Z * Z :=
  match fuel with
  | O => (d, k)
  | S fuel' =>
      if (d mod 10 =? 0) && negb (d =? 0) then strip_zeros fuel' (d / 10) (k + 1)
      else (d, k)
  end.

Definition zeros (n : Z) : string :=
  string_of_list_ascii (repeat "0"%char (Z.to_nat n)).

(** Layout of [repr]: plain notation while the decimal point stays
    within [-4 < decpt <= 16], exponent notation beyond. *)
Definition repr_layout (ds : string) (decpt : Z) : string :=
  let n := Z.of_nat (String.length ds) in
  if (decpt <=? -4) || (16 <? decpt) then
    let ex := decpt - 1 in
    let mant :=
      if n <=? 1 then ds
      else String.substring 0 1 ds +:+ "." +:+
           String.substring 1 (String.length ds - 1) ds in
    mant +:+ "e" +:+ (if ex <? 0 then "-" else "+") +:+
    (if Z.abs ex <? 10 then "0" else "") +:+ nat_str (Z.abs ex)
  else if decpt <=? 0 then "0." +:+ zeros (- decpt) +:+ ds
  else if n <=? decpt then ds +:+ zeros (decpt - n) +:+ ".0"
  else String.substring 0 (Z.to_nat decpt) ds +:+ "." +:+
       String.substring (Z.to_nat decpt) (String.length ds - Z.to_nat decpt) ds.

Definition repr_finite (m : positive) (e : Z) : string :=
  let '(d, k) := shortest 20 m e (log10_floor m e) in
  let '(d, k) := strip_zeros 20 d k in
  let ds := nat_str d in
  repr_layout ds (k + Z.of_nat (String.length ds)).

(** [repr(x)], which is also [str(x)] and what an f-string field without
    a format specification shows. *)
Definition float_repr (x : float) : string :=
  match x with
  | S754_nan => "nan"
  | S754_infinity s => sign_str s +:+ "inf"
  | S754_zero s => sign_str s +:+ "0.0"
  | S754_finite s m e => sign_str s +:+ repr_finite m e
  end.

(** [str(v)] on the numeric objects (the only ones the monitor formats). *)
Definition num_str (v : value) : string :=
  match v with
  | PyBool b => if b then "True" else "False"
  | PyInt z => int_str z
  | PyFloat f => float_repr f
  | _ => ""
  end.

End Py.

(** ** The monitor *)

Module Monitor.
Import Py.

Definition LF : string := String (ascii_of_nat 10) EmptyString.

(** *** Data model *)

(** [metrics['memory']]: keys [percent], [used], [total], [available]. *)
Record MemoryStats := {
  mem_percent : float;
  mem_used : float;
  mem_total : float;
  mem_available : float
}.

(** One value of [metrics['disk']]: keys [percent], [used], [total], [free]. *)
Record DiskStats := {
  disk_percent : float;
  disk_used : float;
  disk_total : float;
  disk_free : float
}.

(** [proc.info] for the attributes [pid], [name], [cpu_percent],
    [memory_percent]; psutil fills an attribute it may not read with
    [None]. *)
Record ProcessInfo := {
  pid : Z;
  name : option string;
  cpu_percent : option float;
  memory_percent : option float
}.

(** The [metrics] dictionary of one cycle.  [disk] keeps the insertion
    order of the dictionary. *)
Record Metrics := {
  m_cpu_percent : float;
  m_memory : MemoryStats;
  m_disk : list (string * DiskStats);
  m_process_count : Z;
  m_top_processes : list ProcessInfo
}.

Record datetime := {
  year : Z; month : Z; day : Z; hour : Z; minute : Z; second : Z;
  microsecond : Z
}.

(** *** What the operating system answers during one cycle (psutil and
    the clock) *)

Record sdiskusage := { du_total : Z; du_used : Z; du_free : Z }.

Record svmem := {
  vm_percent : float; vm_used : Z; vm_total : Z; vm_available : Z
}.

(** Reading [proc.info] of one process of [psutil.process_iter]: the
    record, or one of the two psutil exceptions. *)
Inductive proc_read :=
  | ProcInfo (info : ProcessInfo)
  | ProcNoSuchProcess
  | ProcAccessDenied.

Record Provider := {
  cpu_sample : float;                          (* psutil.cpu_percent(interval=1) *)
  virtual_memory : svmem;                      (* psutil.virtual_memory() *)
  disk_partitions : list string;               (* mountpoints, in enumeration order *)
  disk_usage : string -> result sdiskusage;    (* psutil.disk_usage(mountpoint),
                                                  the same answer at every call
                                                  of the cycle *)
  pids : list Z;                               (* psutil.pids() *)
  process_iter : list proc_read;               (* reading proc.info of each process *)
  now_report : datetime;                       (* datetime.now() in generate_report *)
  now_heartbeat : datetime                     (* datetime.now() in monitor_continuous *)
}.

(** *** State of a [SystemHealthMonitor] *)

Record SystemHealthMonitor := { thresholds : gmap string value }.

Definition f80 : float := Eval vm_compute in float_of_Z 80.
Definition f85 : float := Eval vm_compute in float_of_Z 85.
Definition f90 : float := Eval vm_compute in float_of_Z 90.

Definition default_thresholds : gmap string value :=
  <["cpu_percent" := PyFloat f80]>
  (<["memory_percent" := PyFloat f85]>
  (<["disk_percent" := PyFloat f90]>
  (<["max_processes" := PyInt 300]> ∅))).

(** The configuration document: a JSON object whose [thresholds] member,
    when present, is itself an object (section 6 of the interface). *)
Record config := { cfg_thresholds : option (gmap string value) }.

(** The configuration file as [__init__] finds it. *)
Inductive config_file :=
  | NoFile                      (* os.path.exists(config_file) is false *)
  | Malformed                   (* json.load raises *)
  | Document (c : config).

(** [config.get('thresholds', {})]. *)
Definition config_get_thresholds (c : config) : gmap string value :=
  match cfg_thresholds c with
  | Some t => t
  | None => ∅
  end.

(** [d.update(other)]: the keys of [other] are set in [d]. *)
Definition dict_update (d other : gmap string value) : gmap string value :=
  other ∪ d.

(** [SystemHealthMonitor.__init__] (the thresholds; the logging set-up
    has no part in any decision). *)
Definition __init__ (config_file : config_file) : result SystemHealthMonitor :=
  let thresholds := default_thresholds in
  match config_file with
  | NoFile => Ok {| thresholds := thresholds |}
  | Malformed => Raise JSONDecodeError
  | Document config =>
      Ok {| thresholds := dict_update thresholds (config_get_thresholds config) |}
  end.

Definition getitem (d : gmap string value) (k : string) : result value :=
  match d !! k with
  | Some v => Ok v
  | None => Raise (KeyError k)
  end.

(** A [for] loop whose body may raise. *)
Fixpoint for_each {A S : Type} (body : S -> A -> result S) (l : list A) (s : S)
  : result S :=
  match l with
  | [] => Ok s
  | x :: l' => s' ← body s x; for_each body l' s'
  end.

(** *** Collection *)

Definition get_cpu_usage (os : Provider) : float := cpu_sample os.

(** [round(bytes_value / (1024**3), 2)]. *)
Definition bytes_to_gb (bytes_value : Z) : result float :=
  q ← int_truediv bytes_value (1024 ^ 3); Ok (round2 q).

Definition get_memory_usage (os : Provider) : result MemoryStats :=
  let memory := virtual_memory os in
  used ← bytes_to_gb (vm_used memory);
  total ← bytes_to_gb (vm_total memory);
  available ← bytes_to_gb (vm_available memory);
  Ok {| mem_percent := vm_percent memory; mem_used := used;
        mem_total := total; mem_available := available |}.

(** [d[k] = v] on an insertion-ordered dictionary: an existing key keeps
    its place, a new key goes last. *)
Fixpoint dict_set {V : Type} (d : list (string * V)) (k : string) (v : V)
  : list (string * V) :=
  match d with
  | [] => [(k, v)]
  | (k', v') :: d' =>
      if String.eqb k' k then (k, v) :: d' else (k', v') :: dict_set d' k v
  end.

(** The dictionary entry built for one readable mount. *)
Definition disk_entry (usage : sdiskusage) : result DiskStats :=
  q ← int_truediv (du_used usage) (du_total usage);
  used ← bytes_to_gb (du_used usage);
  total ← bytes_to_gb (du_total usage);
  free ← bytes_to_gb (du_free usage);
  Ok {| disk_percent := float_mul_int q 100; disk_used := used;
        disk_total := total; disk_free := free |}.

Definition get_disk_usage (os : Provider) : result (list (string * DiskStats)) :=
  for_each
    (fun disk_info mountpoint =>
       match disk_usage os mountpoint with
       | Ok usage =>
           entry ← disk_entry usage;
           Ok (dict_set disk_info mountpoint entry)
       | Raise PermissionError => Ok disk_info          (* continue *)
       | Raise e => Raise e
       end)
    (disk_partitions os) [].

Definition get_process_count (os : Provider) : Z := Z.of_nat (length (pids os)).

(** [x or 0] for an optional float: [None] and both zeros are falsy. *)
Definition or_zero (x : option float) : value :=
  match x with
  | None => PyInt 0
  | Some (S754_zero _) => PyInt 0
  | Some f => PyFloat f
  end.

(** The sort key [lambda x: x['cpu_percent'] or 0], as an exact value
    ([None] for a NaN). *)
Definition sort_key (x : ProcessInfo) : option xreal :=
  match or_zero (cpu_percent x) with
  | PyFloat f => float_value f
  | _ => Some (XFin 0%Q)
  end.

(** [sorted]: a stable sort that only asks [a < b].  On keys that are
    all ordered the result of a stable sort does not depend on the
    algorithm ([stable_sorted_unique] below); insertion stands for it. *)
Fixpoint insert_sorted {A : Type} (lt : A -> A -> bool) (x : A) (l : list A)
  : list A :=
  match l with
  | [] => [x]
  | y :: l' => if lt y x then y :: insert_sorted lt x l' else x :: y :: l'
  end.

Fixpoint sort_stable {A : Type} (lt : A -> A -> bool) (l : list A) : list A :=
  match l with
  | [] => []
  | x :: l' => insert_sorted lt x (sort_stable lt l')
  end.

(** [sorted(l, key=key, reverse=True)]: the list is reversed, sorted
    ascending and stable, and reversed again. *)
Definition sorted_reverse {A : Type} (key : A -> option xreal) (l : list A)
  : list A :=
  reverse (sort_stable (fun a b => opt_lt (key a) (key b)) (reverse l)).

(** [l[:limit]], a negative [limit] counting from the end. *)
Definition slice_to {A : Type} (l : list A) (limit : Z) : list A :=
  if 0 <=? limit then take (Z.to_nat limit) l
  else take (length l - Z.to_nat (- limit))%nat l.

Definition get_top_processes (os : Provider) (limit : Z) : list ProcessInfo :=
  let processes :=
    fold_left
      (fun processes proc =>
         match proc with
         | ProcInfo info => processes ++ [info]
         | ProcNoSuchProcess | ProcAccessDenied => processes     (* continue *)
         end)
      (process_iter os) [] in
  slice_to (sorted_reverse sort_key processes) limit.

(** *** Threshold evaluation *)

Definition cpu_alert (x : float) (t : value) : string :=
  "High CPU usage: " +:+ format_1f x +:+ "% (threshold: " +:+ num_str t +:+ "%)".

Definition memory_alert (x : float) (t : value) : string :=
  "High memory usage: " +:+ format_1f x +:+ "% (threshold: " +:+ num_str t +:+ "%)".

Definition disk_alert (mount : string) (x : float) (t : value) : string :=
  "High disk usage on " +:+ mount +:+ ": " +:+ format_1f x +:+
  "% (threshold: " +:+ num_str t +:+ "%)".

Definition process_alert (n : Z) (t : value) : string :=
  "High process count: " +:+ int_str n +:+ " (threshold: " +:+ num_str t +:+ ")".

Definition check_thresholds (self : SystemHealthMonitor) (metrics : Metrics)
  : result (list string) :=
  let alerts : list string := [] in
  (* CPU check *)
  t ← getitem (thresholds self) "cpu_percent";
  b ← gt (PyFloat (m_cpu_percent metrics)) t;
  let alerts :=
    if b : bool then alerts ++ [cpu_alert (m_cpu_percent metrics) t] else alerts in
  (* Memory check *)
  t ← getitem (thresholds self) "memory_percent";
  b ← gt (PyFloat (mem_percent (m_memory metrics))) t;
  let alerts :=
    if b : bool then alerts ++ [memory_alert (mem_percent (m_memory metrics)) t]
    else alerts in
  (* Disk check *)
  alerts ← for_each
    (fun alerts '(mount, disk_data) =>
       t ← getitem (thresholds self) "disk_percent";
       b ← gt (PyFloat (disk_percent disk_data)) t;
       Ok (if b : bool then alerts ++ [disk_alert mount (disk_percent disk_data) t]
           else alerts))
    (m_disk metrics) alerts;
  (* Process count check *)
  t ← getitem (thresholds self) "max_processes";
  b ← gt (PyInt (m_process_count metrics)) t;
  let alerts :=
    if b : bool then alerts ++ [process_alert (m_process_count metrics) t] else alerts in
  Ok alerts.

(** *** Report *)

Definition pad2 (n : Z) : string :=
  if n <? 10 then "0" +:+ nat_str n else nat_str n.

Definition pad4 (n : Z) : string :=
  (if n <? 1000 then "0" else "") +:+ (if n <? 100 then "0" else "") +:+ pad2 n.

(** [strftime('%Y-%m-%d %H:%M:%S')]. *)
Definition strftime_datetime (d : datetime) : string :=
  pad4 (year d) +:+ "-" +:+ pad2 (month d) +:+ "-" +:+ pad2 (day d) +:+ " " +:+
  pad2 (hour d) +:+ ":" +:+ pad2 (minute d) +:+ ":" +:+ pad2 (second d).

(** [strftime('%H:%M:%S')]. *)
Definition strftime_time (d : datetime) : string :=
  pad2 (hour d) +:+ ":" +:+ pad2 (minute d) +:+ ":" +:+ pad2 (second d).

(** [format(v, '.1f')] on a number. *)
Definition format_1f_num (v : value) : string :=
  match v with
  | PyFloat f => format_1f f
  | PyInt z => format_1f (float_of_Z z)
  | _ => ""
  end.

Definition name_str (n : option string) : string :=
  match n with
  | Some s => s
  | None => "None"
  end.

Definition disk_line (mount : string) (disk_data : DiskStats) : string :=
  LF +:+ "  " +:+ mount +:+ ": " +:+ format_1f (disk_percent disk_data) +:+ "% (" +:+
  float_repr (disk_used disk_data) +:+ " GB / " +:+
  float_repr (disk_total disk_data) +:+ " GB)".

Definition process_line (proc : ProcessInfo) : string :=
  LF +:+ "  PID " +:+ int_str (pid proc) +:+ ": " +:+ name_str (name proc) +:+
  " - CPU: " +:+ format_1f_num (or_zero (cpu_percent proc)) +:+
  "%, Memory: " +:+ format_1f_num (or_zero (memory_percent proc)) +:+ "%".

(** [generate_report]; [now] is what [datetime.now()] returns during the
    call. *)
Definition generate_report (now : datetime) (metrics : Metrics) : string :=
  let report :=
    LF +:+ "=== SYSTEM HEALTH REPORT ===" +:+ LF +:+
    "Timestamp: " +:+ strftime_datetime now +:+ LF +:+
    LF +:+
    "CPU Usage: " +:+ format_1f (m_cpu_percent metrics) +:+ "%" +:+ LF +:+
    "Memory Usage: " +:+ format_1f (mem_percent (m_memory metrics)) +:+ "% (" +:+
    float_repr (mem_used (m_memory metrics)) +:+ " GB / " +:+
    float_repr (mem_total (m_memory metrics)) +:+ " GB)" +:+ LF +:+
    LF +:+
    "Disk Usage:" in
  let report :=
    fold_left (fun report '(mount, disk_data) => report +:+ disk_line mount disk_data)
              (m_disk metrics) report in
  let report :=
    report +:+ LF +:+ LF +:+ "Running Processes: " +:+
    int_str (m_process_count metrics) in
  let report := report +:+ LF +:+ LF +:+ "Top 5 Processes by CPU:" in
  let report :=
    fold_left (fun report proc => report +:+ process_line proc)
              (m_top_processes metrics) report in
  report.

(** *** Output and the run loop *)

Inductive level := INFO | WARNING.

Inductive event :=
  | Log (lvl : level) (message : string)              (* self.logger.<lvl>(message) *)
  | LogThresholds (t : gmap string value)            (* logger.info(f"Thresholds: {...}") *)
  | Print (text : string)                            (* print(text) *)
  | Sleep (seconds : Z).                             (* time.sleep(seconds) returned *)

(** A computation with output: the events performed, in order, and the
    value returned or the exception raised after them. *)
Inductive io (A : Type) := IO (trace : list event) (res : result A).
Arguments IO {A} trace res.

Definition io_trace {A} (m : io A) : list event := let 'IO t _ := m in t.
Definition io_result {A} (m : io A) : result A := let 'IO _ r := m in r.

#[export] Instance io_ret : MRet io := fun A a => IO [] (Ok a).
#[export] Instance io_bind : MBind io := fun A B f m =>
  match m with
  | IO t (Ok a) => let 'IO t' r := f a in IO (t ++ t') r
  | IO t (Raise e) => IO t (Raise e)
  end.

Definition emit (e : event) : io unit := IO [e] (Ok tt).
Definition lift {A} (r : result A) : io A := IO [] r.

(** A [for] loop whose body performs output. *)
Fixpoint io_for_each {A : Type} (body : A -> io unit) (l : list A) : io unit :=
  match l with
  | [] => mret tt
  | x :: l' => body x;; io_for_each body l'
  end.

Definition send_alert (self : SystemHealthMonitor) (alert_type message : string)
  : io unit :=
  let alert_msg := "🚨 ALERT [" +:+ alert_type +:+ "]: " +:+ message in
  emit (Log WARNING alert_msg);;
  emit (Print (LF +:+ alert_msg +:+ LF)).

Definition monitor_once (self : SystemHealthMonitor) (os : Provider)
  : io (Metrics * list string * string) :=
  memory ← lift (get_memory_usage os);
  disk ← lift (get_disk_usage os);
  let top_processes := get_top_processes os 5 in
  let metrics :=
    {| m_cpu_percent := get_cpu_usage os;
       m_memory := memory;
       m_disk := disk;
       m_process_count := get_process_count os;
       m_top_processes := top_processes |} in
  (* Check for alerts *)
  alerts ← lift (check_thresholds self metrics);
  io_for_each (fun alert => send_alert self "THRESHOLD_EXCEEDED" alert) alerts;;
  (* Log current status *)
  let report := generate_report (now_report os) metrics in
  emit (Log INFO "System health check completed");;
  mret (metrics, alerts, report).

(** [time.sleep(seconds)]. *)
Definition sleep (seconds : Z) : io unit :=
  if seconds <? 0 then lift (Raise ValueError) else emit (Sleep seconds).

(** One pass through the body of [while True]. *)
Definition iteration (self : SystemHealthMonitor) (interval : Z) (os : Provider)
  : io unit :=
  '(metrics, alerts, report) ← monitor_once self os;
  match alerts with
  | [] => emit (Print ("✅ System healthy - " +:+ strftime_time (now_heartbeat os)))
  | _ => mret tt
  end;;
  sleep interval.

(** A [KeyboardInterrupt] delivered to a computation once [steps] of its
    events are done.  A computation that raised by itself before that
    point keeps its own exception; one that had finished is interrupted
    right after. *)
Definition interrupt_after {A} (steps : nat) (m : io A) : io A :=
  match m with
  | IO t r =>
      if (steps <? length t)%nat then IO (take steps t) (Raise KeyboardInterrupt)
      else match r with
           | Ok _ => IO t (Raise KeyboardInterrupt)
           | Raise e => IO t (Raise e)
           end
  end.

(** The [while True] loop under a stop request: [completed] iterations
    run undisturbed, the signal arrives [steps] events into the next one
    (the last event of an iteration is its [Sleep]).  [env i] is what the
    operating system answers during iteration [i]. *)
Fixpoint run_loop (self : SystemHealthMonitor) (interval : Z)
    (env : nat -> Provider) (i completed steps : nat) : io unit :=
  match completed with
  | O => interrupt_after steps (iteration self interval (env i))
  | S completed' =>
      iteration self interval (env i);;
      run_loop self interval env (S i) completed' steps
  end.

(** [try: body except KeyboardInterrupt: handler]. *)
Definition try_except_KeyboardInterrupt (body handler : io unit) : io unit :=
  match body with
  | IO t (Raise KeyboardInterrupt) => let 'IO t' r := handler in IO (t ++ t') r
  | _ => body
  end.

(** [monitor_continuous] with the stop request arriving inside the [try]
    block at the point [(completed, steps)]. *)
Definition monitor_continuous (self : SystemHealthMonitor) (interval : Z)
    (env : nat -> Provider) (completed steps : nat) : io unit :=
  emit (Log INFO ("Starting continuous monitoring (interval: " +:+
                  int_str interval +:+ "s)"));;
  emit (LogThresholds (thresholds self));;
  try_except_KeyboardInterrupt
    (run_loop self interval env 0 completed steps)
    (emit (Log INFO "Monitoring stopped by user");;
     emit (Print (LF +:+ "🛑 Monitoring stopped"))).

(** The parsed command line: [--once], [--interval] (an [int], 60 when
    absent) and [--report]. *)
Record Args := { arg_once : bool; arg_interval : Z; arg_report : bool }.

(** [main], after [parser.parse_args()].  [config_file] is the state of
    "monitor_config.json"; the stop request [(completed, steps)] only
    matters in continuous mode. *)
Definition main (args : Args) (config_file : config_file)
    (env : nat -> Provider) (completed steps : nat) : io unit :=
  monitor ← lift (__init__ config_file);
  if arg_once args || arg_report args then
    '(metrics, alerts, report) ← monitor_once monitor (env 0%nat);
    if arg_report args then emit (Print report) else mret tt
  else monitor_continuous monitor (arg_interval args) env completed steps.

End Monitor.

Import Py Monitor.
#[local] Arguments String.append !s1 s2 : simpl nomatch.

(** ** Vocabulary of the properties *)

(** The objects that order against a number. *)
Definition is_number (v : value) : bool :=
  match v with
  | PyBool _ | PyInt _ | PyFloat _ => true
  | _ => false
  end.

(** The exact value of a number ([None]: a NaN, or not a number). *)
Definition exact_value (v : value) : option xreal :=
  match num_value v with
  | Ok x => x
  | Raise _ => None
  end.

(** [a] strictly exceeds [b]; [a] equals [b]. *)
Definition exceeds (a b : value) : bool := opt_gt (exact_value a) (exact_value b).
Definition equals (a b : value) : bool := opt_eq (exact_value a) (exact_value b).

(** [xs] occurs inside [s]. *)
Definition contains (s xs : string) : Prop :=
  exists pre post, s = pre +:+ xs +:+ post.

(** The four recognised thresholds of a monitor, all numbers. *)
Record numeric_thresholds (self : SystemHealthMonitor) (tc tm td tp : value)
  : Prop := {
  nt_cpu : thresholds self !! "cpu_percent" = Some tc;
  nt_memory : thresholds self !! "memory_percent" = Some tm;
  nt_disk : thresholds self !! "disk_percent" = Some td;
  nt_processes : thresholds self !! "max_processes" = Some tp;
  nt_cpu_num : is_number tc = true;
  nt_memory_num : is_number tm = true;
  nt_disk_num : is_number td = true;
  nt_processes_num : is_number tp = true
}.

(** The alerts of each check, taken alone. *)
Definition cpu_part (metrics : Metrics) (t : value) : list string :=
  if exceeds (PyFloat (m_cpu_percent metrics)) t
  then [cpu_alert (m_cpu_percent metrics) t] else [].

Definition memory_part (metrics : Metrics) (t : value) : list string :=
  if exceeds (PyFloat (mem_percent (m_memory metrics))) t
  then [memory_alert (mem_percent (m_memory metrics)) t] else [].

Definition disk_part (metrics : Metrics) (t : value) : list string :=
  mount_data ← m_disk metrics;
  if exceeds (PyFloat (disk_percent mount_data.2)) t
  then [disk_alert mount_data.1 (disk_percent mount_data.2) t] else [].

Definition process_part (metrics : Metrics) (t : value) : list string :=
  if exceeds (PyInt (m_process_count metrics)) t
  then [process_alert (m_process_count metrics) t] else [].

(** What it means for the evaluator's output [alerts] to carry the alert
    text [a] exactly when the value [v] breaches the threshold [t]. *)
Definition alerts_iff_breach (alerts : list string) (a : string) (v t : value)
  : Prop :=
  (a ∈ alerts <-> exceeds v t = true) /\ (equals v t = true -> a ∉ alerts).

(** The keys that the evaluator reads. *)
Definition recognised (k : string) : Prop :=
  k ∈ ["cpu_percent"; "memory_percent"; "disk_percent"; "max_processes"].

#[export] Instance recognised_dec k : Decision (recognised k).
Proof. unfold recognised. apply _. Defined.

(** The configuration with the unrecognised keys of its [thresholds]
    object removed. *)
Definition remove_unrecognised (c : config) : config :=
  {| cfg_thresholds :=
       filter (fun kv : string * value => recognised kv.1) <$> cfg_thresholds c |}.

(** A byte count as the operating system reports it. *)
Definition byte_count (n : Z) : Prop := 0 <= n < 2 ^ 64.

(** Usage figures of a mount with a non-zero size. *)
Record usage_ok (u : sdiskusage) : Prop := {
  uo_total_pos : 0 < du_total u;
  uo_total : byte_count (du_total u);
  uo_used : byte_count (du_used u);
  uo_free : byte_count (du_free u)
}.

(** Every enumerated mount is either refused with an access error or
    readable with a non-zero size. *)
Definition readable_or_denied (os : Provider) : Prop :=
  forall m, m ∈ disk_partitions os ->
    disk_usage os m = Raise PermissionError \/
    exists u, disk_usage os m = Ok u /\ usage_ok u.

(** The processes whose [proc.info] could be read, in enumeration order. *)
Definition readable_processes (os : Provider) : list ProcessInfo :=
  proc ← process_iter os;
  match proc with
  | ProcInfo info => [info]
  | ProcNoSuchProcess | ProcAccessDenied => []
  end.

(** The CPU reading the selection is ordered by: the value of the
    [cpu_percent] field, an absent one counting as 0.  It is read off
    the field itself, not off the key function of the code. *)
Definition cpu_reading (p : ProcessInfo) : option xreal :=
  match cpu_percent p with
  | None => Some (XFin 0%Q)
  | Some f => float_value f
  end.

(** The CPU reading of a process is a number: a percentage, or absent. *)
Definition key_defined (p : ProcessInfo) : Prop := is_Some (cpu_reading p).

(** [a] does not come below [b]: its reading is at least the reading of
    [b]. *)
Definition key_ge (a b : ProcessInfo) : Prop :=
  exists x y, cpu_reading a = Some x /\ cpu_reading b = Some y /\
              xreal_compare x y <> Lt.

(** The processes whose reading equals [q]. *)
Definition same_key (q : option xreal) (p : ProcessInfo) : Prop :=
  opt_eq (cpu_reading p) q = true.

#[export] Instance same_key_dec q p : Decision (same_key q p).
Proof. unfold same_key. apply _. Defined.

(** The report without its time stamp. *)
Definition report_head : string :=
  LF +:+ "=== SYSTEM HEALTH REPORT ===" +:+ LF +:+ "Timestamp: ".

Definition concat_lines {A : Type} (line : A -> string) (l : list A) : string :=
  fold_right (fun x rest => line x +:+ rest) "" l.

Definition report_body (metrics : Metrics) : string :=
  LF +:+ LF +:+
  "CPU Usage: " +:+ format_1f (m_cpu_percent metrics) +:+ "%" +:+ LF +:+
  "Memory Usage: " +:+ format_1f (mem_percent (m_memory metrics)) +:+ "% (" +:+
  float_repr (mem_used (m_memory metrics)) +:+ " GB / " +:+
  float_repr (mem_total (m_memory metrics)) +:+ " GB)" +:+ LF +:+
  LF +:+
  "Disk Usage:" +:+
  concat_lines (fun md : string * DiskStats => disk_line md.1 md.2) (m_disk metrics) +:+
  LF +:+ LF +:+ "Running Processes: " +:+ int_str (m_process_count metrics) +:+
  LF +:+ LF +:+ "Top 5 Processes by CPU:" +:+
  concat_lines process_line (m_top_processes metrics).

(** What the sink does with one alert of a cycle. *)
Definition alert_events (alert : string) : list event :=
  [Log WARNING ("🚨 ALERT [THRESHOLD_EXCEEDED]: " +:+ alert);
   Print (LF +:+ "🚨 ALERT [THRESHOLD_EXCEEDED]: " +:+ alert +:+ LF)].

(** The events of one undisturbed pass through the loop body. *)
Definition cycle_events (self : SystemHealthMonitor) (interval : Z) (os : Provider)
  : list event :=
  io_trace (iteration self interval os).

(** The events of the first [n] passes. *)
Definition completed_cycles (self : SystemHealthMonitor) (interval : Z)
    (env : nat -> Provider) (n : nat) : list event :=
  i ← seq 0 n; cycle_events self interval (env i).

Definition start_events (self : SystemHealthMonitor) (interval : Z) : list event :=
  [Log INFO ("Starting continuous monitoring (interval: " +:+ int_str interval +:+ "s)");
   LogThresholds (thresholds self)].

Definition stop_events : list event :=
  [Log INFO "Monitoring stopped by user"; Print (LF +:+ "🛑 Monitoring stopped")].

(** The cycles up to and including number [n] collect and evaluate
    without an exception. *)
Definition cycles_ok (self : SystemHealthMonitor) (env : nat -> Provider) (n : nat)
  : Prop :=
  forall i, (i <= n)%nat -> exists v, io_result (monitor_once self (env i)) = Ok v.

(** A run that was stopped between two cycles: whole cycles, then the
    whole output of the last one, then the stop notice, and a normal
    return. *)
Definition stops_between_cycles (self : SystemHealthMonitor) (interval : Z)
    (env : nat -> Provider) (run : io unit) : Prop :=
  exists n outputs,
    cycle_events self interval (env n) = outputs ++ [Sleep interval] /\
    run = IO (start_events self interval ++ completed_cycles self interval env n ++
              outputs ++ stop_events) (Ok tt).

(** What a dictionary under construction holds: one entry per key, each
    computed from the usage the operating system reports for its mount. *)
Definition disk_info_inv (os : Provider) (d : list (string * DiskStats)) : Prop :=
  NoDup d.*1 /\
  forall m e, (m, e) ∈ d -> exists u, disk_usage os m = Ok u /\ disk_entry u = Ok e.

(** The sign bit of a float is set (a NaN has none). *)
Definition is_negative (f : float) : bool :=
  match f with
  | S754_zero s | S754_infinity s | S754_finite s _ _ => s
  | S754_nan => false
  end.

(** The usage of the mount can be read. *)
Definition is_readable (os : Provider) (m : string) : bool :=
  match disk_usage os m with
  | Ok _ => true
  | Raise _ => false
  end.

(** [t'] is at least [t]. *)
Definition at_least (t' t : value) : Prop :=
  exceeds t' t = true \/ equals t' t = true.

(** The heartbeat line of a cycle without alerts. *)
Definition heartbeat (os : Provider) : event :=
  Print ("✅ System healthy - " +:+ strftime_time (now_heartbeat os)).

(** The event is a wait of the loop. *)
Definition is_sleep (e : event) : bool :=
  match e with
  | Sleep _ => true
  | _ => false
  end.

(** A machine whose figures can all be collected: the memory sizes are
    byte counts, and every mount is readable with a non-zero size or
    refused. *)
Record healthy (os : Provider) : Prop := {
  h_used : byte_count (vm_used (virtual_memory os));
  h_total : byte_count (vm_total (virtual_memory os));
  h_available : byte_count (vm_available (virtual_memory os));
  h_disk : readable_or_denied os
}.

(** *** Sample data *)

Definition f95 : float := Eval vm_compute in float_of_Z 95.
Definition f50 : float := Eval vm_compute in float_of_Z 50.
Definition f42_5 : float :=
  Eval vm_compute in SFdiv prec emax (float_of_Z 85) (float_of_Z 2).
Definition f120_25 : float :=
  Eval vm_compute in SFdiv prec emax (float_of_Z 481) (float_of_Z 4).

Definition default_monitor : SystemHealthMonitor :=
  {| thresholds := default_thresholds |}.

Definition sample_memory : MemoryStats :=
  {| mem_percent := f42_5; mem_used := f50; mem_total := f120_25;
     mem_available := f50 |}.

(** CPU at 95.0, one mount at 95 % and one at 50 %. *)
Definition sample_metrics : Metrics :=
  {| m_cpu_percent := f95;
     m_memory := sample_memory;
     m_disk := [("/", {| disk_percent := f95; disk_used := f95;
                         disk_total := f120_25; disk_free := f50 |});
                ("/data", {| disk_percent := f50; disk_used := f50;
                             disk_total := f120_25; disk_free := f50 |})];
     m_process_count := 120;
     m_top_processes := [] |}.

Definition sample_time : datetime :=
  {| year := 2024; month := 3; day := 7; hour := 9; minute := 5; second := 0;
     microsecond := 0 |}.

(** A machine with a readable root and a mount that refuses access. *)
Definition sample_os : Provider :=
  {| cpu_sample := f95;
     virtual_memory := {| vm_percent := f42_5; vm_used := 8 * 1024 ^ 3;
                          vm_total := 16 * 1024 ^ 3;
                          vm_available := 8 * 1024 ^ 3 |};
     disk_partitions := ["/"; "/secret"];
     disk_usage := fun m =>
       if String.eqb m "/" then
         Ok {| du_total := 500 * 1024 ^ 3; du_used := 475 * 1024 ^ 3;
               du_free := 25 * 1024 ^ 3 |}
       else Raise PermissionError;
     pids := [1; 2; 3];
     process_iter := [];
     now_report := sample_time;
     now_heartbeat := sample_time |}.

(** The same machine with an empty mount: its size is zero. *)
Definition empty_mount_os : Provider :=
  {| cpu_sample := f95;
     virtual_memory := virtual_memory sample_os;
     disk_partitions := ["/"; "/mnt/empty"];
     disk_usage := fun m =>
       if String.eqb m "/" then disk_usage sample_os "/"
       else Ok {| du_total := 0; du_used := 0; du_free := 0 |};
     pids := [1; 2; 3];
     process_iter := [];
     now_report := sample_time;
     now_heartbeat := sample_time |}.

Definition one_second_later : datetime :=
  {| year := 2024; month := 3; day := 7; hour := 9; minute := 5; second := 1;
     microsecond := 0 |}.

Definition proc (n : Z) (cpu : option float) : ProcessInfo :=
  {| pid := n; name := Some "worker"; cpu_percent := cpu; memory_percent := None |}.

(** Three processes, one unreadable, one without a CPU reading. *)
Definition three_process_os : Provider :=
  {| cpu_sample := f50;
     virtual_memory := virtual_memory sample_os;
     disk_partitions := [];
     disk_usage := fun _ => Raise PermissionError;
     pids := [1; 2; 3; 4];
     process_iter := [ProcInfo (proc 1 (Some f50)); ProcAccessDenied;
                      ProcInfo (proc 3 None); ProcInfo (proc 4 (Some f95))];
     now_report := sample_time;
     now_heartbeat := sample_time |}.

(** A machine on which reading the second mount fails with an error
    that is not an access error. *)
Definition broken_mount_os : Provider :=
  {| cpu_sample := f95;
     virtual_memory := virtual_memory sample_os;
     disk_partitions := ["/"; "/mnt/gone"; "/data"];
     disk_usage := fun m =>
       if String.eqb m "/mnt/gone" then Raise OSError
       else disk_usage sample_os "/";
     pids := [1; 2; 3];
     process_iter := [];
     now_report := sample_time;
     now_heartbeat := sample_time |}.

(** A quiet machine: nothing exceeds a default threshold. *)
Definition quiet_os : Provider :=
  {| cpu_sample := f50;
     virtual_memory := virtual_memory sample_os;
     disk_partitions := ["/"];
     disk_usage := fun _ =>
       Ok {| du_total := 500 * 1024 ^ 3; du_used := 250 * 1024 ^ 3;
             du_free := 250 * 1024 ^ 3 |};
     pids := [1; 2; 3];
     process_iter := [ProcInfo (proc 1 (Some f50))];
     now_report := sample_time;
     now_heartbeat := one_second_later |}.

(** A monitor whose [disk_percent] threshold is a string. *)
Definition text_threshold_monitor : SystemHealthMonitor :=
  {| thresholds := <["disk_percent" := PyStr "high"]> default_thresholds |}.

(** A monitor with every threshold above the default. *)
Definition lenient_monitor : SystemHealthMonitor :=
  {| thresholds :=
       <["cpu_percent" := PyInt 99]>
       (<["memory_percent" := PyFloat f95]>
       (<["disk_percent" := PyFloat f95]>
       (<["max_processes" := PyInt 500]> ∅))) |}.

(** A run whose cycles after the first meet the broken mount. *)
Definition failing_env (i : nat) : Provider :=
  match i with
  | O => sample_os
  | S _ => broken_mount_os
  end.

(** The thresholds object of a configuration document that sets one
    recognised threshold and one key the monitor does not know. *)
Definition sample_thresholds : gmap string value :=
  <["cpu_percent" := PyInt 50]> (<["colour" := PyStr "red"]> ∅).

Definition sample_config : config := {| cfg_thresholds := Some sample_thresholds |}.

(** The command line [--report]. *)
Definition report_args : Args :=
  {| arg_once := false; arg_interval := 60; arg_report := true |}.

(** Scenario A: CPU at 95.0, everything else below its threshold. *)
Definition scenario_A_metrics : Metrics :=
  {| m_cpu_percent := f95;
     m_memory := sample_memory;
     m_disk := [("/data", {| disk_percent := f50; disk_used := f50;
                             disk_total := f120_25; disk_free := f50 |})];
     m_process_count := 120;
     m_top_processes := [] |}.

(** ** Facts about the runtime model *)

(** The rendering and the arithmetic on a few values, as Python shows
    them. *)
Example repr_default_thresholds :
  map num_str [PyFloat f80; PyFloat f85; PyFloat f90; PyInt 300; PyBool true] =
  ["80.0"; "85.0"; "90.0"; "300"; "True"].
Proof. reflexivity. Qed.

Example repr_shortest :
  (* 0.1, 1e23, 1e16, 1e15, 1e-05, 5e-324 *)
  map float_repr
    [S754_finite false 7205759403792794 (-56);
     S754_finite false 5960464477539062 24;
     S754_finite false 5000000000000000 1;
     S754_finite false 8000000000000000 (-3);
     S754_finite false 5902958103587057 (-69);
     S754_finite false 1 (-1074)] =
  ["0.1"; "1e+23"; "1e+16"; "1000000000000000.0"; "1e-05"; "5e-324"].
Proof. reflexivity. Qed.

Example format_1f_ties :
  (* 0.25 and 0.75 are ties, 0.35 lies below the tie, -0.01 keeps its sign *)
  map format_1f
    [S754_finite false 4503599627370496 (-54);
     S754_finite false 6755399441055744 (-53);
     S754_finite false 6305039478318694 (-54);
     S754_finite true 5764607523034235 (-59);
     S754_nan] =
  ["0.2"; "0.8"; "0.3"; "-0.0"; "nan"].
Proof. reflexivity. Qed.

Example truediv_values :
  int_truediv 1 3 = Ok (S754_finite false 6004799503160661 (-54)) /\
  int_truediv 0 (-5) = Ok (S754_zero true) /\
  int_truediv 1 0 = Raise ZeroDivisionError /\
  int_truediv (10 ^ 400) 3 = Raise OverflowError /\
  (* 8 GiB and 1234567890 bytes, in gigabytes *)
  bytes_to_gb (8 * 1024 ^ 3) = Ok (float_of_Z 8) /\
  float_repr <$> bytes_to_gb 1234567890 = Ok "1.15".
Proof. repeat split; reflexivity. Qed.

(** The comparison is exact, also between an integer and a float:
    2^53 + 1 exceeds the float 2^53. *)
Example comparison_values :
  exceeds (PyFloat f95) (PyFloat f80) = true /\
  exceeds (PyFloat f80) (PyFloat f80) = false /\
  exceeds (PyFloat f80) (PyFloat S754_nan) = false /\
  exceeds (PyInt (2 ^ 53 + 1)) (PyFloat (float_of_Z (2 ^ 53))) = true /\
  exceeds (PyInt 301) (PyInt 300) = true /\
  equals (PyFloat (float_of_Z 300)) (PyInt 300) = true.
Proof. repeat split; reflexivity. Qed.

Section order_facts.

Lemma xreal_compare_antisym x y :
  xreal_compare y x = CompOpp (xreal_compare x y).
Proof.
  destruct x, y; simpl; try reflexivity.
  symmetry. apply Qcompare_antisym.
Qed.

Lemma xreal_compare_refl x : xreal_compare x x = Eq.
Proof. destruct x; simpl; try reflexivity. apply Qeq_alt. reflexivity. Qed.

Lemma xreal_le_trans x y z :
  xreal_compare x y <> Gt -> xreal_compare y z <> Gt -> xreal_compare x z <> Gt.
Proof.
  destruct x, y, z; simpl; try congruence.
  rewrite <- !Qle_alt. apply Qle_trans.
Qed.

Lemma xreal_eq_trans x y z :
  xreal_compare x z = Eq -> xreal_compare y z = Eq -> xreal_compare x y = Eq.
Proof.
  destruct x, y, z; simpl; try congruence.
  rewrite <- !Qeq_alt. intros H1 H2. rewrite H1, H2. reflexivity.
Qed.

Lemma opt_eq_not_gt x y : opt_eq x y = true -> opt_gt x y = false.
Proof.
  unfold opt_eq, opt_gt. destruct (opt_compare x y) as [[]|]; congruence.
Qed.

Lemma equals_not_exceeds a b : equals a b = true -> exceeds a b = false.
Proof. apply opt_eq_not_gt. Qed.

Lemma gt_number a b :
  is_number a = true -> is_number b = true -> gt a b = Ok (exceeds a b).
Proof.
  unfold gt, exceeds, exact_value.
  destruct a, b; simpl; try discriminate; reflexivity.
Qed.

End order_facts.

Section ieee_comparison.

Lemma digits2_pos_bounds (m : positive) :
  2 ^ (Zpos (digits2_pos m) - 1) <= Zpos m < 2 ^ Zpos (digits2_pos m).
Proof.
  induction m as [m IH|m IH|]; simpl digits2_pos.
  - rewrite Pos2Z.inj_succ. replace (Z.succ (Zpos (digits2_pos m)) - 1) with (Z.succ (Zpos (digits2_pos m) - 1)) by lia.
    rewrite !Z.pow_succ_r by lia. lia.
  - rewrite Pos2Z.inj_succ. replace (Z.succ (Zpos (digits2_pos m)) - 1) with (Z.succ (Zpos (digits2_pos m) - 1)) by lia.
    rewrite !Z.pow_succ_r by lia. lia.
  - simpl. lia.
Qed.

(** The fraction that [dyadic] builds. *)
Lemma dyadic_num_den a e :
  Qnum (dyadic a e) = a * 2 ^ Z.max e 0 /\
  Zpos (Qden (dyadic a e)) = 2 ^ Z.max (- e) 0.
Proof.
  unfold dyadic. destruct (Z.leb_spec 0 e) as [He|He]; simpl.
  - rewrite Z.max_l, Z.max_r by lia. simpl. lia.
  - rewrite Z.max_r, Z.max_l by lia. rewrite Z2Pos.id by (apply Z.pow_pos_nonneg; lia).
    simpl. lia.
Qed.

Lemma dyadic_compare a b e1 e2 :
  Qcompare (dyadic a e1) (dyadic b e2) =
  (a * 2 ^ (e1 - Z.min e1 e2) ?= b * 2 ^ (e2 - Z.min e1 e2)).
Proof.
  unfold Qcompare.
  destruct (dyadic_num_den a e1) as [-> ->], (dyadic_num_den b e2) as [-> ->].
  set (k := Z.min e1 e2).
  set (s := k + Z.max (- e1) 0 + Z.max (- e2) 0).
  assert (Hs : 0 <= s) by (unfold s, k; lia).
  assert (Hp : 0 < 2 ^ s) by (apply Z.pow_pos_nonneg; lia).
  rewrite (Zmult_compare_compat_r (a * 2 ^ (e1 - k)) (b * 2 ^ (e2 - k)) (2 ^ s)) by lia.
  rewrite <- !Z.mul_assoc, <- !Z.pow_add_r by (unfold s, k; lia).
  f_equal; f_equal; f_equal; unfold s, k; lia.
Qed.


Lemma bounded_facts m e :
  bounded prec emax m e = true ->
  Zpos (digits2_pos m) <= 53 /\ -1074 <= e /\
  (Zpos (digits2_pos m) = 53 \/ e = -1074).
Proof.
  unfold bounded, canonical_mantissa, fexp, emin, prec, emax.
  intros [H _]%andb_prop. apply Z.eqb_eq in H. lia.
Qed.

(** On canonical mantissas the value order is the order of the exponents,
    then of the mantissas. *)
Lemma canonical_compare m1 e1 m2 e2 :
  bounded prec emax m1 e1 = true -> bounded prec emax m2 e2 = true ->
  Qcompare (dyadic (Zpos m1) e1) (dyadic (Zpos m2) e2) =
  match e1 ?= e2 with
  | Lt => Lt
  | Gt => Gt
  | Eq => Pos.compare_cont Eq m1 m2
  end.
Proof.
  intros (Hd1 & He1 & Hc1)%bounded_facts (Hd2 & He2 & Hc2)%bounded_facts.
  rewrite dyadic_compare.
  pose proof (digits2_pos_bounds m1) as [Hl1 Hu1].
  pose proof (digits2_pos_bounds m2) as [Hl2 Hu2].
  assert (Hmono : forall d, d <= 53 -> 2 ^ d <= 2 ^ 53)
    by (intros; apply Z.pow_le_mono_r; lia).
  assert (Hstep : forall d, 1 <= d -> 2 <= 2 ^ d).
  { intros d Hd. change 2 with (2 ^ 1) at 1. apply Z.pow_le_mono_r; lia. }
  destruct (Z.compare_spec e1 e2) as [->|Hlt|Hgt].
  - rewrite Z.min_id, Z.sub_diag, !Z.mul_1_r. reflexivity.
  - rewrite Z.min_l, Z.sub_diag, Z.mul_1_r by lia.
    apply Z.compare_lt_iff.
    assert (Zpos (digits2_pos m2) = 53) as E by lia. rewrite E in Hl2.
    specialize (Hmono _ Hd1). specialize (Hstep (e2 - e1) ltac:(lia)).
    change (2 ^ (53 - 1)) with 4503599627370496 in Hl2.
    change (2 ^ 53) with 9007199254740992 in Hmono. nia.
  - rewrite Z.min_r, Z.sub_diag, Z.mul_1_r by lia.
    apply Z.compare_gt_iff.
    assert (Zpos (digits2_pos m1) = 53) as E by lia. rewrite E in Hl1.
    specialize (Hmono _ Hd2). specialize (Hstep (e1 - e2) ltac:(lia)).
    change (2 ^ (53 - 1)) with 4503599627370496 in Hl1.
    change (2 ^ 53) with 9007199254740992 in Hmono. nia.
Qed.

Lemma dyadic_opp m e : (dyadic (Zneg m) e == - dyadic (Zpos m) e)%Q.
Proof.
  unfold dyadic. destruct (0 <=? e); unfold Qeq, Qopp; simpl; lia.
Qed.

Lemma dyadic_pos m e : (0 < dyadic (Zpos m) e)%Q.
Proof.
  unfold dyadic, Qlt. destruct (Z.leb_spec 0 e); simpl; [|lia].
  assert (0 < 2 ^ e) by (apply Z.pow_pos_nonneg; lia). nia.
Qed.

(** On binary64 values the exact comparison is the IEEE comparison. *)
Lemma float_compare_ieee (x y : float) :
  valid_binary prec emax x = true -> valid_binary prec emax y = true ->
  opt_compare (float_value x) (float_value y) = SFcompare x y.
Proof.
  destruct x as [sx|sx| |sx mx ex], y as [sy|sy| |sy my ey]; simpl;
    try reflexivity; intros Hx Hy;
    try (destruct sx; reflexivity); try (destruct sy; reflexivity);
    try (destruct sx, sy; reflexivity).
  - f_equal. destruct sy.
    + apply Qgt_alt. rewrite dyadic_opp. pose proof (dyadic_pos my ey).
      apply Qopp_lt_compat in H. exact H.
    + apply Qlt_alt. apply dyadic_pos.
  - f_equal. destruct sx.
    + apply Qlt_alt. rewrite dyadic_opp. pose proof (dyadic_pos mx ex).
      apply Qopp_lt_compat in H. exact H.
    + apply Qgt_alt. apply dyadic_pos.
  - f_equal. destruct sx, sy.
    + transitivity (CompOpp (Qcompare (dyadic (Zpos mx) ex) (dyadic (Zpos my) ey))).
      * rewrite Qcompare_antisym, !dyadic_opp. unfold Qcompare, Qopp. simpl.
        rewrite !Z.mul_opp_l. apply Z.compare_opp.
      * rewrite (canonical_compare mx ex my ey Hx Hy).
        destruct (ex ?= ey); reflexivity.
    + apply Qlt_alt. rewrite dyadic_opp.
      pose proof (dyadic_pos mx ex). pose proof (dyadic_pos my ey).
      apply Qopp_lt_compat in H. eapply Qlt_trans; eassumption.
    + apply Qgt_alt. rewrite dyadic_opp.
      pose proof (dyadic_pos mx ex). pose proof (dyadic_pos my ey).
      apply Qopp_lt_compat in H0. eapply Qlt_trans; eassumption.
    + now apply canonical_compare.
Qed.

(** [x > y] on two floats is the IEEE "less than" read from the right. *)
Lemma float_exceeds_ieee (x y : float) :
  valid_binary prec emax x = true -> valid_binary prec emax y = true ->
  exceeds (PyFloat x) (PyFloat y) = SFltb y x.
Proof.
  intros Hx Hy. unfold exceeds, exact_value, opt_gt, SFltb. simpl.
  rewrite <- (float_compare_ieee y x Hy Hx).
  unfold opt_compare.
  destruct (float_value x) as [a|], (float_value y) as [b|]; try reflexivity.
  rewrite (xreal_compare_antisym a b). now destruct (xreal_compare a b).
Qed.

End ieee_comparison.

Section string_facts.

#[local] Abbreviation chars := list_ascii_of_string.

Lemma append_assoc (a b c : string) : (a +:+ b) +:+ c = a +:+ b +:+ c.
Proof. induction a as [|x a IH]; simpl; [reflexivity | f_equal; exact IH]. Qed.

Lemma chars_app (a b : string) : chars (a +:+ b) = chars a ++ chars b.
Proof. induction a as [|x a IH]; simpl; [reflexivity | f_equal; exact IH]. Qed.

Lemma chars_inj (a b : string) : chars a = chars b -> a = b.
Proof.
  intros H. rewrite <- (string_of_list_ascii_of_string a).
  rewrite <- (string_of_list_ascii_of_string b). now rewrite H.
Qed.

Lemma append_inv_head (p a b : string) : p +:+ a = p +:+ b -> a = b.
Proof. induction p as [|x p IH]; simpl; [auto | intros [= H]; auto]. Qed.

Lemma append_inv_tail (a b s : string) : a +:+ s = b +:+ s -> a = b.
Proof.
  intros H. apply chars_inj. apply (f_equal chars) in H.
  rewrite !chars_app in H. now apply app_inv_tail in H.
Qed.

(** Two ways to cut a text at the last occurrence of a character agree. *)
Lemma split_at_last (c : ascii) (l1 r1 l2 r2 : list ascii) :
  l1 ++ c :: r1 = l2 ++ c :: r2 -> c ∉ r1 -> c ∉ r2 -> l1 = l2.
Proof.
  revert l2. induction l1 as [|x l1 IH]; intros [|y l2]; simpl; intros H N1 N2.
  - reflexivity.
  - injection H as -> ->. exfalso. apply N1, elem_of_app. right. left.
  - injection H as -> <-. exfalso. apply N2, elem_of_app. right. left.
  - injection H as -> H. f_equal. eauto.
Qed.

Lemma uint_no_colon (d : Decimal.uint) :
  ":"%char ∉ chars (NilEmpty.string_of_uint d).
Proof.
  induction d; simpl; rewrite ?not_elem_of_cons;
    [apply not_elem_of_nil | split; [discriminate | assumption] ..].
Qed.

Lemma nat_str_no_colon (n : Z) : ":"%char ∉ chars (nat_str n).
Proof.
  unfold nat_str, NilZero.string_of_uint.
  destruct (N.to_uint (Z.to_N n)) eqn:E; try (rewrite <- E; apply uint_no_colon).
  simpl. rewrite not_elem_of_cons. split; [discriminate | apply not_elem_of_nil].
Qed.

Lemma format_1f_no_colon (x : float) : ":"%char ∉ chars (format_1f x).
Proof.
  assert (Hs : forall s, ":"%char ∉ chars (sign_str s)).
  { intros []; simpl; rewrite ?not_elem_of_cons;
      [split; [discriminate|] |]; apply not_elem_of_nil. }
  destruct x as [s|s| |s m e]; unfold format_1f;
    rewrite ?chars_app, ?not_elem_of_app; simpl;
    rewrite ?not_elem_of_cons; repeat split;
    auto using nat_str_no_colon, not_elem_of_nil; discriminate.
Qed.

Lemma contains_intro (pre xs post : string) : contains (pre +:+ xs +:+ post) xs.
Proof. exists pre, post. reflexivity. Qed.

End string_facts.

(** ** Threshold evaluation *)

Section evaluator.

Lemma for_each_ok {A S : Type} (body : S -> A -> result S) (f : S -> A -> S)
    (l : list A) (s : S) :
  (forall s x, x ∈ l -> body s x = Ok (f s x)) ->
  for_each body l s = Ok (fold_left f l s).
Proof.
  revert s. induction l as [|x l IH]; intros s H; simpl; [reflexivity|].
  rewrite H by set_solver. simpl. apply IH. intros; apply H; set_solver.
Qed.

Lemma fold_left_append {A B : Type} (g : A -> list B) (l : list A) (s : list B) :
  fold_left (fun acc x => acc ++ g x) l s = s ++ (l ≫= g).
Proof.
  revert s. induction l as [|x l IH]; intros s; simpl.
  - now rewrite app_nil_r.
  - rewrite IH. now rewrite <- app_assoc.
Qed.

Variable self : SystemHealthMonitor.
Variables tc tm td tp : value.
Hypothesis numeric : numeric_thresholds self tc tm td tp.

(** The evaluator returns the four groups of alerts one after the
    other. *)
Lemma check_thresholds_parts (metrics : Metrics) :
  check_thresholds self metrics =
  Ok (cpu_part metrics tc ++ memory_part metrics tm ++
      disk_part metrics td ++ process_part metrics tp).
Proof.
  destruct numeric as [Hc Hm Hd Hp Nc Nm Nd Np].
  unfold check_thresholds, getitem. rewrite Hc, Hm, Hp. simpl.
  rewrite (gt_number _ tc), (gt_number _ tm) by (assumption || reflexivity).
  simpl.
  erewrite for_each_ok with
    (f := fun acc md =>
            acc ++ (if exceeds (PyFloat (disk_percent md.2)) td
                    then [disk_alert md.1 (disk_percent md.2) td] else [])).
  2:{ intros s [mount d] _. rewrite Hd. simpl.
      rewrite gt_number by (assumption || reflexivity). simpl.
      destruct (exceeds _ _); [reflexivity | now rewrite app_nil_r]. }
  simpl. rewrite gt_number by (assumption || reflexivity). simpl.
  rewrite fold_left_append. unfold cpu_part, memory_part, disk_part, process_part.
  f_equal.
  destruct (exceeds (PyFloat (m_cpu_percent metrics)) tc),
           (exceeds (PyFloat (mem_percent (m_memory metrics))) tm),
           (exceeds (PyInt (m_process_count metrics)) tp);
    simpl; rewrite ?app_nil_r; reflexivity.
Qed.

End evaluator.

Section alert_texts.

(** The four templates start differently, so an alert text tells which
    check produced it. *)
Lemma cpu_alert_not_memory x t y u : cpu_alert x t <> memory_alert y u.
Proof. unfold cpu_alert, memory_alert. simpl. discriminate. Qed.

Lemma cpu_alert_not_disk x t mount y u : cpu_alert x t <> disk_alert mount y u.
Proof. unfold cpu_alert, disk_alert. simpl. discriminate. Qed.

Lemma cpu_alert_not_process x t n u : cpu_alert x t <> process_alert n u.
Proof. unfold cpu_alert, process_alert. simpl. discriminate. Qed.

Lemma memory_alert_not_disk x t mount y u : memory_alert x t <> disk_alert mount y u.
Proof. unfold memory_alert, disk_alert. simpl. discriminate. Qed.

Lemma memory_alert_not_process x t n u : memory_alert x t <> process_alert n u.
Proof. unfold memory_alert, process_alert. simpl. discriminate. Qed.

Lemma disk_alert_not_process mount x t n u : disk_alert mount x t <> process_alert n u.
Proof. unfold disk_alert, process_alert. simpl. discriminate. Qed.

(** A disk alert names its mount: the rendered percentage has no colon,
    so the mount is what precedes the last colon before it. *)
Lemma disk_alert_mount m1 x1 m2 x2 t :
  disk_alert m1 x1 t = disk_alert m2 x2 t -> m1 = m2.
Proof.
  unfold disk_alert. intros H.
  apply append_inv_head in H.
  assert (E : forall m f : string,
             m +:+ ": " +:+ f +:+ "% (threshold: " +:+ num_str t +:+ "%)" =
             (m +:+ ": " +:+ f) +:+ ("% (threshold: " +:+ num_str t +:+ "%)"))
    by (intros; now rewrite !append_assoc).
  rewrite !E in H. apply append_inv_tail in H.
  apply (f_equal list_ascii_of_string) in H.
  rewrite !chars_app in H. simpl in H.
  apply chars_inj.
  eapply (split_at_last ":"%char); [exact H | |];
    (rewrite not_elem_of_cons; split; [discriminate | apply format_1f_no_colon]).
Qed.

(** A key of a dictionary has one value. *)
Lemma dict_unique {V : Type} (l : list (string * V)) k v1 v2 :
  NoDup l.*1 -> (k, v1) ∈ l -> (k, v2) ∈ l -> v1 = v2.
Proof.
  induction l as [|[k' v'] l IH]; csimpl; intros Hd H1 H2.
  - now apply elem_of_nil in H1.
  - apply NoDup_cons in Hd as [Hk Hd].
    assert (Hkey : forall v, (k, v) ∈ l -> k' ∈ l.*1 \/ k <> k').
    { intros v Hv. destruct (decide (k = k')) as [<-|]; [left|now right].
      apply list_elem_of_fmap. now exists (k, v). }
    apply elem_of_cons in H1 as [E1|H1], H2 as [E2|H2].
    + congruence.
    + destruct (Hkey _ H2); [tauto | congruence].
    + destruct (Hkey _ H1); [tauto | congruence].
    + auto.
Qed.

Lemma elem_of_cpu_part a metrics t :
  a ∈ cpu_part metrics t <->
  a = cpu_alert (m_cpu_percent metrics) t /\
  exceeds (PyFloat (m_cpu_percent metrics)) t = true.
Proof.
  unfold cpu_part. destruct (exceeds _ _);
    rewrite ?list_elem_of_singleton, ?elem_of_nil; intuition congruence.
Qed.

Lemma elem_of_memory_part a metrics t :
  a ∈ memory_part metrics t <->
  a = memory_alert (mem_percent (m_memory metrics)) t /\
  exceeds (PyFloat (mem_percent (m_memory metrics))) t = true.
Proof.
  unfold memory_part. destruct (exceeds _ _);
    rewrite ?list_elem_of_singleton, ?elem_of_nil; intuition congruence.
Qed.

Lemma elem_of_process_part a metrics t :
  a ∈ process_part metrics t <->
  a = process_alert (m_process_count metrics) t /\
  exceeds (PyInt (m_process_count metrics)) t = true.
Proof.
  unfold process_part. destruct (exceeds _ _);
    rewrite ?list_elem_of_singleton, ?elem_of_nil; intuition congruence.
Qed.

Lemma elem_of_disk_part a metrics t :
  a ∈ disk_part metrics t <->
  exists mount d, (mount, d) ∈ m_disk metrics /\
    a = disk_alert mount (disk_percent d) t /\
    exceeds (PyFloat (disk_percent d)) t = true.
Proof.
  unfold disk_part. rewrite list_elem_of_bind. split.
  - intros [[mount d] [Ha Hin]]. simpl in Ha. exists mount, d.
    destruct (exceeds _ _);
      [apply list_elem_of_singleton in Ha; auto | now apply elem_of_nil in Ha].
  - intros (mount & d & Hin & -> & He). exists (mount, d). simpl.
    rewrite He. split; [apply list_elem_of_singleton; reflexivity | exact Hin].
Qed.

End alert_texts.

(** ** Properties of the evaluator *)

Lemma default_monitor_numeric :
  numeric_thresholds default_monitor
    (PyFloat f80) (PyFloat f85) (PyFloat f90) (PyInt 300).
Proof. split; reflexivity. Qed.

(** C2: the alerts come out in the order CPU, memory, disks (in the
    order of the snapshot's disk dictionary), process count, whichever
    of the checks breach. *)
Theorem check_thresholds_order self tc tm td tp metrics :
  numeric_thresholds self tc tm td tp ->
  check_thresholds self metrics =
  Ok (cpu_part metrics tc ++ memory_part metrics tm ++
      disk_part metrics td ++ process_part metrics tp).
Proof. intros H. now apply check_thresholds_parts. Qed.

Lemma check_thresholds_order_witness :
  check_thresholds default_monitor sample_metrics =
  Ok (cpu_part sample_metrics (PyFloat f80) ++
      memory_part sample_metrics (PyFloat f85) ++
      disk_part sample_metrics (PyFloat f90) ++
      process_part sample_metrics (PyInt 300)).
Proof.
  apply (check_thresholds_order default_monitor).
  split; reflexivity.
Defined.

(** C1: an alert for a metric is produced exactly when the value of the
    snapshot strictly exceeds its threshold, for the CPU, the memory,
    every disk mount and the process count; a value equal to its
    threshold produces none. *)
Theorem check_thresholds_alert_iff self tc tm td tp metrics :
  numeric_thresholds self tc tm td tp ->
  NoDup (m_disk metrics).*1 ->
  exists alerts,
    check_thresholds self metrics = Ok alerts /\
    alerts_iff_breach alerts (cpu_alert (m_cpu_percent metrics) tc)
      (PyFloat (m_cpu_percent metrics)) tc /\
    alerts_iff_breach alerts (memory_alert (mem_percent (m_memory metrics)) tm)
      (PyFloat (mem_percent (m_memory metrics))) tm /\
    (forall mount d, (mount, d) ∈ m_disk metrics ->
       alerts_iff_breach alerts (disk_alert mount (disk_percent d) td)
         (PyFloat (disk_percent d)) td) /\
    alerts_iff_breach alerts (process_alert (m_process_count metrics) tp)
      (PyInt (m_process_count metrics)) tp.
Proof.
  intros Hn Hd. eexists. split; [exact (check_thresholds_parts _ _ _ _ _ Hn metrics)|].
  assert (Hiff : forall a v t,
            (a ∈ cpu_part metrics tc ++ memory_part metrics tm ++
                 disk_part metrics td ++ process_part metrics tp <->
             exceeds v t = true) ->
            alerts_iff_breach
              (cpu_part metrics tc ++ memory_part metrics tm ++
               disk_part metrics td ++ process_part metrics tp) a v t).
  { intros a v t H. split; [exact H|]. intros E%equals_not_exceeds.
    rewrite H, E. discriminate. }
  refine (conj _ (conj _ (conj _ _))); try (intros mount d Hin); apply Hiff;
    rewrite !elem_of_app, elem_of_cpu_part, elem_of_memory_part,
      elem_of_disk_part, elem_of_process_part.
  - split; [|tauto].
    intros [[_ ?]|[[E _]|[(m' & d' & _ & E & _)|[E _]]]]; [assumption|exfalso..].
    + eapply cpu_alert_not_memory, E.
    + eapply cpu_alert_not_disk, E.
    + eapply cpu_alert_not_process, E.
  - split; [|tauto].
    intros [[E _]|[[_ ?]|[(m' & d' & _ & E & _)|[E _]]]]; [exfalso|assumption|exfalso..].
    + eapply cpu_alert_not_memory. symmetry. exact E.
    + eapply memory_alert_not_disk, E.
    + eapply memory_alert_not_process, E.
  - split.
    + intros [[E _]|[[E _]|[(m' & d' & Hin' & E & He)|[E _]]]].
      * exfalso. eapply cpu_alert_not_disk. symmetry. exact E.
      * exfalso. eapply memory_alert_not_disk. symmetry. exact E.
      * pose proof (disk_alert_mount _ _ _ _ _ E) as ->.
        now rewrite (dict_unique _ _ _ _ Hd Hin Hin').
      * exfalso. eapply disk_alert_not_process, E.
    + intros He. right. right. left. eauto.
  - split; [|tauto].
    intros [[E _]|[[E _]|[(m' & d' & _ & E & _)|[_ ?]]]]; [exfalso..|assumption].
    + eapply cpu_alert_not_process. symmetry. exact E.
    + eapply memory_alert_not_process. symmetry. exact E.
    + eapply disk_alert_not_process. symmetry. exact E.
Qed.

Lemma check_thresholds_alert_iff_witness :
  exists alerts,
    check_thresholds default_monitor sample_metrics = Ok alerts /\
    alerts_iff_breach alerts (cpu_alert (m_cpu_percent sample_metrics) (PyFloat f80))
      (PyFloat (m_cpu_percent sample_metrics)) (PyFloat f80) /\
    alerts_iff_breach alerts
      (memory_alert (mem_percent (m_memory sample_metrics)) (PyFloat f85))
      (PyFloat (mem_percent (m_memory sample_metrics))) (PyFloat f85) /\
    (forall mount d, (mount, d) ∈ m_disk sample_metrics ->
       alerts_iff_breach alerts (disk_alert mount (disk_percent d) (PyFloat f90))
         (PyFloat (disk_percent d)) (PyFloat f90)) /\
    alerts_iff_breach alerts (process_alert (m_process_count sample_metrics) (PyInt 300))
      (PyInt (m_process_count sample_metrics)) (PyInt 300).
Proof.
  apply (check_thresholds_alert_iff default_monitor).
  - split; reflexivity.
  - compute_done.
Defined.

(** C8 (scenario A): with the CPU at 95.0, everything else within its
    threshold and the default thresholds, the evaluator returns exactly one
    alert, and its text shows the value as "95.0" and the threshold as
    "80.0". *)
Theorem scenario_A_one_alert metrics :
  m_cpu_percent metrics = f95 ->
  exceeds (PyFloat (mem_percent (m_memory metrics))) (PyFloat f85) = false ->
  Forall (fun md => exceeds (PyFloat (disk_percent md.2)) (PyFloat f90) = false)
         (m_disk metrics) ->
  exceeds (PyInt (m_process_count metrics)) (PyInt 300) = false ->
  __init__ NoFile = Ok default_monitor /\
  exists alert,
    check_thresholds default_monitor metrics = Ok [alert] /\
    alert = "High CPU usage: 95.0% (threshold: 80.0%)" /\
    contains alert "95.0" /\ contains alert "80.0".
Proof.
  intros Hcpu Hmem Hdisk Hproc. split; [reflexivity|].
  exists "High CPU usage: 95.0% (threshold: 80.0%)".
  split; [|split; [reflexivity|split]].
  - rewrite (check_thresholds_parts _ _ _ _ _ default_monitor_numeric).
    unfold cpu_part, memory_part, process_part. rewrite Hcpu, Hmem, Hproc.
    assert (disk_part metrics (PyFloat f90) = []) as ->.
    { unfold disk_part. induction Hdisk as [|md l Hmd _ IH]; [reflexivity|].
      rewrite bind_cons, Hmd, IH. reflexivity. }
    reflexivity.
  - exact (contains_intro "High CPU usage: " "95.0" "% (threshold: 80.0%)").
  - exact (contains_intro "High CPU usage: 95.0% (threshold: " "80.0" "%)").
Qed.

Lemma scenario_A_one_alert_witness :
  __init__ NoFile = Ok default_monitor /\
  exists alert,
    check_thresholds default_monitor scenario_A_metrics = Ok [alert] /\
    alert = "High CPU usage: 95.0% (threshold: 80.0%)" /\
    contains alert "95.0" /\ contains alert "80.0".
Proof.
  apply (scenario_A_one_alert scenario_A_metrics).
  - reflexivity.
  - vm_compute. reflexivity.
  - repeat constructor.
  - vm_compute. reflexivity.
Defined.

(** ** Loading the thresholds *)

Section loading.

Lemma default_lookup_unrecognised k :
  ~ recognised k -> default_thresholds !! k = None.
Proof.
  unfold recognised, default_thresholds. rewrite !not_elem_of_cons.
  intros (? & ? & ? & ? & _).
  now rewrite !lookup_insert_ne, lookup_empty by congruence.
Qed.

(** The evaluator reads the thresholds only at the four recognised keys. *)
Lemma check_thresholds_ext self1 self2 metrics :
  (forall k, recognised k -> thresholds self1 !! k = thresholds self2 !! k) ->
  check_thresholds self1 metrics = check_thresholds self2 metrics.
Proof.
  intros H. unfold check_thresholds, getitem.
  rewrite (H "cpu_percent"), (H "memory_percent"), (H "disk_percent"),
    (H "max_processes") by (unfold recognised; set_solver).
  reflexivity.
Qed.

Lemma init_document_lookup c k :
  thresholds {| thresholds := dict_update default_thresholds (config_get_thresholds c) |} !! k =
  match config_get_thresholds c !! k with
  | Some v => Some v
  | None => default_thresholds !! k
  end.
Proof.
  unfold dict_update. simpl. rewrite lookup_union.
  destruct (config_get_thresholds c !! k), (default_thresholds !! k); reflexivity.
Qed.

End loading.

(** The sample document: [cpu_percent] is overridden, the other three
    thresholds keep their defaults, and the unknown key is carried
    along. *)
Example init_sample_document :
  exists self,
    __init__ (Document sample_config) = Ok self /\
    thresholds self !! "cpu_percent" = Some (PyInt 50) /\
    thresholds self !! "memory_percent" = Some (PyFloat f85) /\
    thresholds self !! "disk_percent" = Some (PyFloat f90) /\
    thresholds self !! "max_processes" = Some (PyInt 300) /\
    thresholds self !! "colour" = Some (PyStr "red").
Proof. eexists. split; [reflexivity|]. repeat split; vm_compute; reflexivity. Qed.

(** C4: a configuration overlays the keys of its [thresholds] object on
    the defaults 80.0, 85.0, 90.0 and 300: a key the object holds gets
    the object's value, every other key keeps its default; a document
    without a [thresholds] object and a missing file give the defaults,
    and construction succeeds. *)
Theorem init_overlays_defaults c t :
  cfg_thresholds c = Some t ->
  (exists self,
     __init__ (Document c) = Ok self /\
     (forall k v, t !! k = Some v -> thresholds self !! k = Some v) /\
     (forall k, t !! k = None -> thresholds self !! k = default_thresholds !! k)) /\
  (exists self,
     __init__ (Document {| cfg_thresholds := None |}) = Ok self /\
     thresholds self = default_thresholds) /\
  (exists self,
     __init__ NoFile = Ok self /\ thresholds self = default_thresholds) /\
  default_thresholds !! "cpu_percent" = Some (PyFloat (float_of_Z 80)) /\
  default_thresholds !! "memory_percent" = Some (PyFloat (float_of_Z 85)) /\
  default_thresholds !! "disk_percent" = Some (PyFloat (float_of_Z 90)) /\
  default_thresholds !! "max_processes" = Some (PyInt 300) /\
  num_str (PyFloat (float_of_Z 80)) = "80.0" /\
  num_str (PyFloat (float_of_Z 85)) = "85.0" /\
  num_str (PyFloat (float_of_Z 90)) = "90.0".
Proof.
  intros Ht. split; [|split; [|split; [|repeat split]]].
  - eexists. split; [reflexivity|].
    assert (Hc : config_get_thresholds c = t)
      by (unfold config_get_thresholds; now rewrite Ht).
    split.
    + intros k v Hk. now rewrite init_document_lookup, Hc, Hk.
    + intros k Hk. now rewrite init_document_lookup, Hc, Hk.
  - eexists. split; [reflexivity|]. simpl. unfold dict_update, config_get_thresholds.
    simpl. apply (left_id_L ∅ (∪)).
  - eexists. split; reflexivity.
Qed.

Lemma init_overlays_defaults_witness :
  (exists self,
     __init__ (Document sample_config) = Ok self /\
     (forall k v, sample_thresholds !! k = Some v -> thresholds self !! k = Some v) /\
     (forall k, sample_thresholds !! k = None ->
                thresholds self !! k = default_thresholds !! k)) /\
  (exists self,
     __init__ (Document {| cfg_thresholds := None |}) = Ok self /\
     thresholds self = default_thresholds) /\
  (exists self,
     __init__ NoFile = Ok self /\ thresholds self = default_thresholds) /\
  default_thresholds !! "cpu_percent" = Some (PyFloat (float_of_Z 80)) /\
  default_thresholds !! "memory_percent" = Some (PyFloat (float_of_Z 85)) /\
  default_thresholds !! "disk_percent" = Some (PyFloat (float_of_Z 90)) /\
  default_thresholds !! "max_processes" = Some (PyInt 300) /\
  num_str (PyFloat (float_of_Z 80)) = "80.0" /\
  num_str (PyFloat (float_of_Z 85)) = "85.0" /\
  num_str (PyFloat (float_of_Z 90)) = "90.0".
Proof. apply (init_overlays_defaults sample_config sample_thresholds). reflexivity. Defined.

(** C10: keys of the [thresholds] object other than the four recognised
    ones do not stop construction, they are merged into the mapping as
    the document gives them, and the evaluator answers as it does for
    the configuration without them. *)
Theorem unrecognised_keys_ignored c t metrics :
  cfg_thresholds c = Some t ->
  exists self self',
    __init__ (Document c) = Ok self /\
    __init__ (Document (remove_unrecognised c)) = Ok self' /\
    (forall k v, ~ recognised k -> t !! k = Some v ->
                 thresholds self !! k = Some v) /\
    (forall k, ~ recognised k -> thresholds self' !! k = None) /\
    (forall k, recognised k -> thresholds self' !! k = thresholds self !! k) /\
    check_thresholds self metrics = check_thresholds self' metrics.
Proof.
  intros Ht. do 2 eexists. split; [reflexivity|]. split; [reflexivity|].
  assert (Hc : config_get_thresholds c = t)
    by (unfold config_get_thresholds; now rewrite Ht).
  assert (Hf : forall k,
            config_get_thresholds (remove_unrecognised c) !! k =
            if decide (recognised k) then t !! k else None).
  { intros k. unfold config_get_thresholds, remove_unrecognised. rewrite Ht. simpl.
    destruct (t !! k) as [v|] eqn:E.
    - destruct (decide (recognised k)).
      + now apply map_lookup_filter_Some.
      + apply map_lookup_filter_None. right. intros v' _. assumption.
    - destruct (decide (recognised k));
        apply map_lookup_filter_None; now left. }
  assert (Hsame : forall k, recognised k ->
            thresholds {| thresholds := dict_update default_thresholds
                            (config_get_thresholds (remove_unrecognised c)) |} !! k =
            thresholds {| thresholds := dict_update default_thresholds
                            (config_get_thresholds c) |} !! k).
  { intros k Hk. rewrite !init_document_lookup, Hf, Hc. now rewrite decide_True. }
  split; [|split; [|split]].
  - intros k v _ Hk. now rewrite init_document_lookup, Hc, Hk.
  - intros k Hk. rewrite init_document_lookup, Hf.
    rewrite decide_False by assumption. now apply default_lookup_unrecognised.
  - exact Hsame.
  - apply check_thresholds_ext. intros k Hk. symmetry. now apply Hsame.
Qed.

Lemma unrecognised_keys_ignored_witness :
  exists self self',
    __init__ (Document sample_config) = Ok self /\
    __init__ (Document (remove_unrecognised sample_config)) = Ok self' /\
    (forall k v, ~ recognised k -> sample_thresholds !! k = Some v ->
                 thresholds self !! k = Some v) /\
    (forall k, ~ recognised k -> thresholds self' !! k = None) /\
    (forall k, recognised k -> thresholds self' !! k = thresholds self !! k) /\
    check_thresholds self sample_metrics = check_thresholds self' sample_metrics.
Proof.
  apply (unrecognised_keys_ignored sample_config sample_thresholds sample_metrics).
  reflexivity.
Defined.

(** ** Disk collection *)

Section disk_collection.

Lemma overflow_bound_large : 2 ^ 64 < overflow_bound.
Proof. reflexivity. Qed.

Lemma int_truediv_ok a b :
  byte_count a -> 0 < b -> exists q, int_truediv a b = Ok q.
Proof.
  intros [Ha1 Ha2] Hb. unfold int_truediv.
  destruct (Z.eqb_spec b 0); [lia|].
  destruct (a =? 0); [eauto|].
  pose proof overflow_bound_large as Hlarge.
  destruct (Z.leb_spec (overflow_bound * Z.abs b) (Z.abs a)) as [Hle|_]; [|eauto].
  exfalso. revert Hlarge Hle. generalize overflow_bound. intros B HB Hle. nia.
Qed.

Lemma bytes_to_gb_ok n : byte_count n -> exists g, bytes_to_gb n = Ok g.
Proof.
  intros Hn. unfold bytes_to_gb.
  destruct (int_truediv_ok n (1024 ^ 3) Hn) as [q ->]; [lia|]. simpl. eauto.
Qed.

Lemma disk_entry_ok u :
  usage_ok u ->
  exists q d, int_truediv (du_used u) (du_total u) = Ok q /\
              disk_entry u = Ok d /\ disk_percent d = float_mul_int q 100.
Proof.
  intros [Hpos Ht Hu Hf]. unfold disk_entry.
  destruct (int_truediv_ok _ _ Hu Hpos) as [q Hq]. rewrite Hq. simpl.
  destruct (bytes_to_gb_ok _ Hu) as [gu ->], (bytes_to_gb_ok _ Ht) as [gt ->],
    (bytes_to_gb_ok _ Hf) as [gf ->]. simpl. eauto.
Qed.

Lemma elem_of_dict_set_keys {V} (d : list (string * V)) k v k' :
  k' ∈ (dict_set d k v).*1 <-> k' = k \/ k' ∈ d.*1.
Proof.
  induction d as [|[k0 v0] d IH]; simpl.
  - rewrite list_elem_of_singleton, elem_of_nil. tauto.
  - destruct (String.eqb_spec k0 k) as [->|Hne]; csimpl;
      rewrite !elem_of_cons, ?IH; tauto.
Qed.

Lemma elem_of_dict_set {V} (d : list (string * V)) k v k' v' :
  (k', v') ∈ dict_set d k v -> (k' = k /\ v' = v) \/ (k', v') ∈ d.
Proof.
  induction d as [|[k0 v0] d IH]; simpl.
  - rewrite list_elem_of_singleton. intros [= -> ->]. auto.
  - destruct (String.eqb_spec k0 k) as [->|Hne];
      rewrite !elem_of_cons; intros [[= -> ->]|H]; auto.
    destruct (IH H); auto.
Qed.

Lemma dict_set_NoDup {V} (d : list (string * V)) k v :
  NoDup d.*1 -> NoDup (dict_set d k v).*1.
Proof.
  induction d as [|[k0 v0] d IH]; simpl; intros Hd.
  - csimpl. apply NoDup_singleton.
  - csimpl in Hd. apply NoDup_cons in Hd as [Hk Hd].
    destruct (String.eqb_spec k0 k) as [->|Hne]; csimpl; apply NoDup_cons.
    + auto.
    + split; [|auto]. rewrite elem_of_dict_set_keys. intros [->|?]; auto.
Qed.

Lemma get_disk_usage_loop os l acc :
  (forall m, m ∈ l ->
     disk_usage os m = Raise PermissionError \/
     exists u, disk_usage os m = Ok u /\ usage_ok u) ->
  disk_info_inv os acc ->
  exists d,
    for_each
      (fun disk_info mountpoint =>
         match disk_usage os mountpoint with
         | Ok usage =>
             entry ← disk_entry usage; Ok (dict_set disk_info mountpoint entry)
         | Raise PermissionError => Ok disk_info
         | Raise e => Raise e
         end) l acc = Ok d /\
    disk_info_inv os d /\
    forall m, m ∈ d.*1 <->
              m ∈ acc.*1 \/ (m ∈ l /\ exists u, disk_usage os m = Ok u).
Proof.
  revert acc. induction l as [|m0 l IH]; intros acc Hl Hacc; simpl.
  - exists acc. split; [reflexivity|]. split; [assumption|].
    intros m. rewrite elem_of_nil. tauto.
  - destruct (Hl m0) as [Hdenied|(u & Hu & Hok)]; [left|..].
    + rewrite Hdenied. simpl.
      destruct (IH acc) as (d & Hd & Hinv & Hkeys); [intros; apply Hl; now right|assumption|].
      exists d. split; [assumption|]. split; [assumption|].
      intros m. rewrite Hkeys, elem_of_cons. split; [tauto|].
      intros [?|[[->|?] [u Hu]]]; [tauto|congruence|eauto].
    + rewrite Hu. destruct (disk_entry_ok u Hok) as (q & e & _ & He & _).
      rewrite He. simpl.
      destruct (IH (dict_set acc m0 e)) as (d & Hd & Hinv & Hkeys).
      * intros; apply Hl; now right.
      * destruct Hacc as [Hnd Hent]. split; [now apply dict_set_NoDup|].
        intros m e' [[-> ->]|Hin]%elem_of_dict_set; eauto.
      * exists d. split; [assumption|]. split; [assumption|].
        intros m. rewrite Hkeys, elem_of_dict_set_keys, elem_of_cons.
        split; [|tauto]. intros [[->|?]|[? ?]]; eauto.
Qed.

End disk_collection.

(** X18: when every readable mount reports a non-zero size, the disk
    map has an entry exactly for the readable mounts, each with
    percent = used / total * 100; a mount refused with an access error
    has no entry at all, and the collection still returns. *)
Theorem get_disk_usage_readable_mounts os :
  readable_or_denied os ->
  exists disk_info,
    get_disk_usage os = Ok disk_info /\
    NoDup disk_info.*1 /\
    (forall m u, m ∈ disk_partitions os -> disk_usage os m = Ok u ->
       exists q d, int_truediv (du_used u) (du_total u) = Ok q /\
                   (m, d) ∈ disk_info /\
                   disk_percent d = float_mul_int q 100) /\
    (forall m, disk_usage os m = Raise PermissionError -> m ∉ disk_info.*1) /\
    (forall m, m ∈ disk_info.*1 -> m ∈ disk_partitions os).
Proof.
  intros Hos. unfold get_disk_usage.
  destruct (get_disk_usage_loop os (disk_partitions os) []) as (d & Hd & [Hnd Hent] & Hkeys).
  - exact Hos.
  - split; [constructor | intros m e []%elem_of_nil].
  - exists d. split; [exact Hd|]. split; [exact Hnd|]. split; [|split].
    + intros m u Hm Hu.
      assert (Hin : m ∈ d.*1) by (apply Hkeys; eauto).
      apply list_elem_of_fmap in Hin as ([m' e] & Hm' & Hin). simpl in Hm'.
      subst m'.
      destruct (Hent _ _ Hin) as (u' & Hu' & He). rewrite Hu in Hu'.
      injection Hu' as <-.
      destruct (Hos m Hm) as [Hden|(u2 & Hu2 & Hok)]; [congruence|].
      rewrite Hu in Hu2. injection Hu2 as <-.
      destruct (disk_entry_ok u Hok) as (q & e' & Hq & He' & Hp).
      exists q, e. rewrite He in He'. injection He' as <-. auto.
    + intros m Hden [[]%elem_of_nil|[_ [u Hu]]]%Hkeys. congruence.
    + intros m [[]%elem_of_nil|[? _]]%Hkeys. assumption.
Qed.

Lemma get_disk_usage_readable_mounts_witness :
  exists disk_info,
    get_disk_usage sample_os = Ok disk_info /\
    NoDup disk_info.*1 /\
    (forall m u, m ∈ disk_partitions sample_os -> disk_usage sample_os m = Ok u ->
       exists q d, int_truediv (du_used u) (du_total u) = Ok q /\
                   (m, d) ∈ disk_info /\
                   disk_percent d = float_mul_int q 100) /\
    (forall m, disk_usage sample_os m = Raise PermissionError -> m ∉ disk_info.*1) /\
    (forall m, m ∈ disk_info.*1 -> m ∈ disk_partitions sample_os).
Proof.
  apply (get_disk_usage_readable_mounts sample_os).
  intros m _. simpl. destruct (String.eqb m "/"); [right|now left].
  eexists. split; [reflexivity|]. split; unfold byte_count; simpl; lia.
Defined.

(** C6: on a machine whose mounts can all be read, one of them of size
    zero, the percentage [used / total * 100] divides by zero inside the
    [try] that only lets [PermissionError] pass: [get_disk_usage] raises
    [ZeroDivisionError], no map is built, not even for the mount read
    before it, and the cycle ends with that exception and no output. *)
Theorem get_disk_usage_zero_total_raises :
  (forall m, m ∈ disk_partitions empty_mount_os ->
             exists u, disk_usage empty_mount_os m = Ok u) /\
  disk_usage empty_mount_os "/mnt/empty" =
    Ok {| du_total := 0; du_used := 0; du_free := 0 |} /\
  get_disk_usage empty_mount_os = Raise ZeroDivisionError /\
  ~ (exists disk_info, get_disk_usage empty_mount_os = Ok disk_info) /\
  monitor_once default_monitor empty_mount_os = IO [] (Raise ZeroDivisionError).
Proof.
  split; [|split; [|split; [|split]]].
  - intros m _. simpl. destruct (String.eqb m "/"); eauto.
  - reflexivity.
  - reflexivity.
  - intros [d Hd]. discriminate Hd.
  - reflexivity.
Qed.

(** ** Top processes *)

Section stable_sort.

Context {A : Type} (key : A -> option xreal).

#[local] Abbreviation lt := (fun a b => opt_lt (key a) (key b)).
#[local] Abbreviation le := (fun a b => opt_lt (key b) (key a) = false).
#[local] Abbreviation same q := (fun a => opt_eq (key a) q = true).

Lemma insert_sorted_perm x l : insert_sorted lt x l ≡ₚ x :: l.
Proof.
  induction l as [|y l IH]; simpl; [reflexivity|].
  destruct (opt_lt (key y) (key x)); [|reflexivity].
  rewrite IH. apply Permutation_swap.
Qed.

Lemma sort_stable_perm l : sort_stable lt l ≡ₚ l.
Proof.
  induction l as [|x l IH]; simpl; [reflexivity|].
  now rewrite insert_sorted_perm, IH.
Qed.

Lemma le_trans a b c :
  is_Some (key a) -> is_Some (key b) -> is_Some (key c) ->
  le a b -> le b c -> le a c.
Proof.
  intros [x Hx] [y Hy] [z Hz]. rewrite Hx, Hy, Hz. unfold opt_lt. simpl.
  pose proof (xreal_le_trans x y z) as Ht.
  rewrite (xreal_compare_antisym x y), (xreal_compare_antisym y z),
    (xreal_compare_antisym x z).
  destruct (xreal_compare x y), (xreal_compare y z), (xreal_compare x z);
    simpl; intros; try reflexivity; try discriminate; exfalso; apply Ht; congruence.
Qed.

Lemma lt_le a b : opt_lt (key a) (key b) = true -> le a b.
Proof.
  unfold opt_lt, opt_compare. destruct (key a) as [x|], (key b) as [y|]; try discriminate.
  rewrite (xreal_compare_antisym x y). destruct (xreal_compare x y); simpl; congruence.
Qed.

Lemma insert_sorted_sorted x l :
  is_Some (key x) -> Forall (fun a => is_Some (key a)) l ->
  StronglySorted le l -> StronglySorted le (insert_sorted lt x l).
Proof.
  intros Hx Hl Hs. induction Hs as [|y l Hs IH Hy]; simpl.
  - repeat constructor.
  - apply Forall_cons in Hl as [Hdy Hl].
    destruct (opt_lt (key y) (key x)) eqn:E.
    + constructor; [now apply IH|].
      rewrite insert_sorted_perm. constructor; [now apply lt_le | assumption].
    + constructor; [now constructor|]. constructor; [exact E|].
      rewrite Forall_forall in Hy, Hl |- *. intros z Hz.
      apply (le_trans x y z); auto.
Qed.

Lemma sort_stable_sorted l :
  Forall (fun a => is_Some (key a)) l -> StronglySorted le (sort_stable lt l).
Proof.
  induction 1 as [|x l Hx Hl IH]; simpl; [constructor|].
  apply insert_sorted_sorted; [assumption| |assumption].
  now rewrite sort_stable_perm.
Qed.

(** Insertion moves an element only past strictly smaller ones, so it
    keeps the order inside every class of equal keys. *)
Lemma insert_sorted_filter q x l :
  filter (same q) (insert_sorted lt x l) = filter (same q) (x :: l).
Proof.
  induction l as [|y l IH]; simpl; [reflexivity|].
  destruct (opt_lt (key y) (key x)) eqn:E; [|reflexivity].
  rewrite (filter_cons _ y), IH, !(filter_cons _ x), (filter_cons _ y).
  destruct (decide (opt_eq (key y) q = true)) as [Hy|]; [|reflexivity].
  destruct (decide (opt_eq (key x) q = true)) as [Hx|]; [|reflexivity].
  exfalso. revert E Hx Hy. unfold opt_lt, opt_eq, opt_compare.
  destruct (key x) as [a|], (key y) as [b|], q as [c|]; try discriminate.
  pose proof (xreal_eq_trans b a c) as Ht.
  destruct (xreal_compare a c), (xreal_compare b c); try discriminate.
  rewrite Ht by reflexivity. discriminate.
Qed.

Lemma sort_stable_filter q l :
  filter (same q) (sort_stable lt l) = filter (same q) l.
Proof.
  induction l as [|x l IH]; simpl; [reflexivity|].
  now rewrite insert_sorted_filter, !filter_cons, IH.
Qed.

Lemma StronglySorted_reverse (R : relation A) l :
  StronglySorted R l -> StronglySorted (flip R) (reverse l).
Proof.
  induction 1 as [|x l Hs IH Hx]; [constructor|].
  rewrite reverse_cons. apply StronglySorted_app_2; [|assumption|repeat constructor].
  intros a b Ha ->%list_elem_of_singleton.
  apply (proj1 (elem_of_reverse _ _)) in Ha.
  rewrite Forall_forall in Hx. unfold flip. auto.
Qed.

Lemma sorted_reverse_perm l : sorted_reverse key l ≡ₚ l.
Proof.
  unfold sorted_reverse. now rewrite reverse_Permutation, sort_stable_perm,
    reverse_Permutation.
Qed.

Lemma sorted_reverse_sorted l :
  Forall (fun a => is_Some (key a)) l ->
  StronglySorted (fun a b => opt_lt (key a) (key b) = false) (sorted_reverse key l).
Proof.
  intros Hl. unfold sorted_reverse.
  apply (StronglySorted_reverse le). apply sort_stable_sorted.
  now apply Forall_reverse.
Qed.

Lemma sorted_reverse_filter q l :
  filter (same q) (sorted_reverse key l) = filter (same q) l.
Proof.
  unfold sorted_reverse.
  now rewrite filter_reverse, sort_stable_filter, filter_reverse, reverse_involutive.
Qed.

Lemma same_refl a : is_Some (key a) -> opt_eq (key a) (key a) = true.
Proof. intros [x ->]. unfold opt_eq. simpl. now rewrite xreal_compare_refl. Qed.

Lemma ge_antisym a b :
  is_Some (key a) -> is_Some (key b) ->
  opt_lt (key a) (key b) = false -> opt_lt (key b) (key a) = false ->
  opt_eq (key b) (key a) = true.
Proof.
  intros [x ->] [y ->]. unfold opt_lt, opt_eq. simpl.
  rewrite (xreal_compare_antisym x y). now destruct (xreal_compare x y).
Qed.

(** A list in descending order is determined by its classes of equal
    keys: whatever stable sort produced it, it is the same list. *)
Lemma stable_sorted_unique (s1 s2 : list A) :
  Forall (fun a => is_Some (key a)) s1 -> Forall (fun a => is_Some (key a)) s2 ->
  StronglySorted (fun a b => opt_lt (key a) (key b) = false) s1 ->
  StronglySorted (fun a b => opt_lt (key a) (key b) = false) s2 ->
  (forall q, filter (same q) s1 = filter (same q) s2) ->
  s1 = s2.
Proof.
  revert s2. induction s1 as [|a s1 IH]; intros [|b s2] Hd1 Hd2 Hs1 Hs2 Hf.
  - reflexivity.
  - apply Forall_cons in Hd2 as [Hb _]. specialize (Hf (key b)).
    rewrite filter_cons, decide_True in Hf by now apply same_refl.
    discriminate Hf.
  - apply Forall_cons in Hd1 as [Ha _]. specialize (Hf (key a)).
    rewrite filter_cons, decide_True in Hf by now apply same_refl.
    discriminate Hf.
  - apply Forall_cons in Hd1 as [Ha Hd1], Hd2 as [Hb Hd2].
    apply StronglySorted_cons in Hs1 as [Ha_ge Hs1], Hs2 as [Hb_ge Hs2].
    rewrite Forall_forall in Ha_ge, Hb_ge.
    assert (Ha2 : a ∈ b :: s2).
    { pose proof (Hf (key a)) as H.
      rewrite filter_cons, decide_True in H by now apply same_refl.
      assert (Hin : a ∈ filter (same (key a)) (b :: s2))
        by (rewrite <- H; left).
      now apply list_elem_of_filter in Hin as [_ ?]. }
    assert (Hb1 : b ∈ a :: s1).
    { pose proof (Hf (key b)) as H.
      rewrite (filter_cons _ b), decide_True in H by now apply same_refl.
      assert (Hin : b ∈ filter (same (key b)) (a :: s1))
        by (rewrite H; left).
      now apply list_elem_of_filter in Hin as [_ ?]. }
    assert (Hsame : opt_eq (key b) (key a) = true).
    { apply elem_of_cons in Ha2 as [->|Ha2]; [now apply same_refl|].
      apply elem_of_cons in Hb1 as [->|Hb1]; [now apply same_refl|].
      apply ge_antisym; auto. }
    assert (a = b) as <-.
    { pose proof (Hf (key a)) as H.
      rewrite !filter_cons, !decide_True in H
        by (assumption || now apply same_refl).
      congruence. }
    f_equal. apply IH; try assumption.
    intros q. specialize (Hf q). rewrite !filter_cons in Hf.
    destruct (decide (opt_eq (key a) q = true)); congruence.
Qed.

End stable_sort.

Lemma StronglySorted_weaken {A : Type} (R1 R2 : relation A) (l : list A) :
  (forall a b, R1 a b -> R2 a b) -> StronglySorted R1 l -> StronglySorted R2 l.
Proof.
  intros HR. induction 1 as [|a l Hs IH Ha]; constructor; [assumption|].
  eapply Forall_impl; [exact Ha | auto].
Qed.

Lemma key_ge_not_lt a b :
  key_ge a b -> opt_lt (cpu_reading a) (cpu_reading b) = false.
Proof.
  intros (x & y & -> & -> & H). unfold opt_lt. simpl.
  now destruct (xreal_compare x y).
Qed.

(** The key function of the code computes the CPU reading: [x or 0]
    replaces an absent value and both zeros by the integer 0, which is
    their value. *)
Lemma sort_key_reading p : sort_key p = cpu_reading p.
Proof.
  unfold sort_key, cpu_reading, or_zero.
  destruct (cpu_percent p) as [[s|s| |s m e]|]; reflexivity.
Qed.

Lemma insert_sorted_ext {A : Type} (lt1 lt2 : A -> A -> bool) x l :
  (forall a b, lt1 a b = lt2 a b) -> insert_sorted lt1 x l = insert_sorted lt2 x l.
Proof.
  intros H. induction l as [|y l IH]; simpl; [reflexivity|].
  now rewrite H, IH.
Qed.

Lemma sorted_reverse_ext {A : Type} (key1 key2 : A -> option xreal) l :
  (forall a, key1 a = key2 a) -> sorted_reverse key1 l = sorted_reverse key2 l.
Proof.
  intros H. unfold sorted_reverse. f_equal.
  induction (reverse l) as [|x l' IH]; simpl; [reflexivity|].
  rewrite IH. apply insert_sorted_ext. intros a b. now rewrite !H.
Qed.

Lemma collect_processes (l : list proc_read) (acc : list ProcessInfo) :
  fold_left
    (fun processes proc =>
       match proc with
       | ProcInfo info => processes ++ [info]
       | ProcNoSuchProcess | ProcAccessDenied => processes
       end) l acc =
  acc ++ (proc ← l;
          match proc with
          | ProcInfo info => [info]
          | ProcNoSuchProcess | ProcAccessDenied => []
          end).
Proof.
  revert acc. induction l as [|r l IH]; intros acc.
  - simpl. now rewrite app_nil_r.
  - rewrite bind_cons. simpl fold_left. rewrite IH.
    destruct r; simpl; now rewrite <- ?app_assoc.
Qed.

Lemma get_top_processes_unfold os limit :
  get_top_processes os limit =
  slice_to (sorted_reverse sort_key (readable_processes os)) limit.
Proof.
  unfold get_top_processes, readable_processes. now rewrite collect_processes.
Qed.

(** C5: the selection has at most [limit] entries ([limit] a number of
    entries; [monitor_once] asks for the default 5); it is the front of
    the readable processes put in descending order of the [cpu_percent]
    field (absent read as 0), processes with equal readings staying in
    their enumeration order.  That list is the only one in descending
    order with these classes, so it is what any stable sort returns. *)
Theorem get_top_processes_sorted os limit :
  0 <= limit ->
  Forall key_defined (readable_processes os) ->
  exists s,
    get_top_processes os limit = take (Z.to_nat limit) s /\
    s ≡ₚ readable_processes os /\
    StronglySorted key_ge s /\
    (forall q, filter (same_key q) s = filter (same_key q) (readable_processes os)) /\
    (forall s', Forall key_defined s' -> StronglySorted key_ge s' ->
       (forall q, filter (same_key q) s' =
                  filter (same_key q) (readable_processes os)) ->
       s' = s) /\
    Z.of_nat (length (get_top_processes os limit)) <= limit.
Proof.
  intros Hlimit Hdef. exists (sorted_reverse cpu_reading (readable_processes os)).
  rewrite get_top_processes_unfold.
  rewrite (sorted_reverse_ext sort_key cpu_reading) by apply sort_key_reading.
  unfold slice_to.
  destruct (Z.leb_spec 0 limit) as [_|]; [|lia].
  split; [reflexivity|]. split; [apply sorted_reverse_perm|].
  split; [|split; [|split]].
  - pose proof (sorted_reverse_sorted cpu_reading _ Hdef) as Hs.
    assert (Hd : Forall key_defined (sorted_reverse cpu_reading (readable_processes os)))
      by now rewrite sorted_reverse_perm.
    revert Hs Hd. generalize (sorted_reverse cpu_reading (readable_processes os)).
    intros s Hs. induction Hs as [|a s Hs IH Ha]; intros Hd; [constructor|].
    apply Forall_cons in Hd as [[x Hx] Hd]. constructor; [auto|].
    rewrite Forall_forall in Ha, Hd |- *. intros b Hb.
    destruct (Hd b Hb) as [y Hy]. exists x, y. repeat split; try assumption.
    specialize (Ha b Hb). rewrite Hx, Hy in Ha. unfold opt_lt in Ha. simpl in Ha.
    intros E. rewrite E in Ha. discriminate.
  - intros q. apply sorted_reverse_filter.
  - intros s' Hd' Hs' Hf'. apply (stable_sorted_unique cpu_reading).
    + exact Hd'.
    + now rewrite sorted_reverse_perm.
    + eapply StronglySorted_weaken; [|exact Hs']. apply key_ge_not_lt.
    + now apply sorted_reverse_sorted.
    + intros q. etransitivity; [exact (Hf' q)|].
      symmetry. apply (sorted_reverse_filter cpu_reading).
  - rewrite length_take. lia.
Qed.

Lemma get_top_processes_sorted_witness :
  exists s,
    get_top_processes three_process_os 2 = take (Z.to_nat 2) s /\
    s ≡ₚ readable_processes three_process_os /\
    StronglySorted key_ge s /\
    (forall q, filter (same_key q) s =
               filter (same_key q) (readable_processes three_process_os)) /\
    (forall s', Forall key_defined s' -> StronglySorted key_ge s' ->
       (forall q, filter (same_key q) s' =
                  filter (same_key q) (readable_processes three_process_os)) ->
       s' = s) /\
    Z.of_nat (length (get_top_processes three_process_os 2)) <= 2.
Proof.
  apply (get_top_processes_sorted three_process_os 2).
  - lia.
  - repeat constructor; eexists; reflexivity.
Defined.

(** Of the processes read at 50, unreadable, absent and 95, the top two
    are the one at 95 and the one at 50; the top five are all three that
    could be read. *)
Example get_top_processes_sample :
  get_top_processes three_process_os 2 = [proc 4 (Some f95); proc 1 (Some f50)] /\
  get_top_processes three_process_os 5 =
    [proc 4 (Some f95); proc 1 (Some f50); proc 3 None].
Proof. split; reflexivity. Qed.

(** ** Report *)

Section report.

Lemma fold_left_lines {A : Type} (body : string -> A -> string) (line : A -> string)
    (l : list A) (init : string) :
  (forall r x, body r x = r +:+ line x) ->
  fold_left body l init = init +:+ concat_lines line l.
Proof.
  intros Hbody. revert init. induction l as [|x l IH]; intros init; simpl.
  - induction init as [|c init IHi]; simpl; [reflexivity | now rewrite <- IHi].
  - now rewrite IH, Hbody, append_assoc.
Qed.

Lemma generate_report_split now metrics :
  generate_report now metrics =
  report_head +:+ strftime_datetime now +:+ report_body metrics.
Proof.
  unfold generate_report, report_head, report_body.
  rewrite (fold_left_lines _ process_line) by reflexivity.
  rewrite (fold_left_lines _ (fun md : string * DiskStats => disk_line md.1 md.2))
    by (intros r [mount d]; reflexivity).
  now rewrite !append_assoc.
Qed.

End report.

(** C3 (amended): the report is the fixed heading, the time stamp of the
    clock at the call, and a text that depends on the snapshot alone; two
    calls on one snapshot differ at most in the time stamp. *)
Theorem generate_report_up_to_timestamp now1 now2 metrics :
  generate_report now1 metrics =
    report_head +:+ strftime_datetime now1 +:+ report_body metrics /\
  generate_report now2 metrics =
    report_head +:+ strftime_datetime now2 +:+ report_body metrics /\
  (generate_report now1 metrics = generate_report now2 metrics <->
   strftime_datetime now1 = strftime_datetime now2).
Proof.
  rewrite !generate_report_split. repeat split.
  - intros H. now apply append_inv_head, append_inv_tail in H.
  - now intros ->.
Qed.

(** C3 as stated fails: the same snapshot reported one second later gives
    another text. *)
Lemma generate_report_clock_counterexample :
  generate_report sample_time sample_metrics <>
  generate_report one_second_later sample_metrics.
Proof.
  rewrite !generate_report_split. intros H.
  apply append_inv_head, append_inv_tail in H. discriminate H.
Qed.

(** ** Dispatch and the run loop *)

Section run_loop.

Variable self : SystemHealthMonitor.

Lemma dispatch_events (alerts : list string) :
  io_for_each (fun alert => send_alert self "THRESHOLD_EXCEEDED" alert) alerts =
  IO (alerts ≫= alert_events) (Ok tt).
Proof.
  induction alerts as [|a alerts IH]; [reflexivity|].
  rewrite bind_cons. simpl. rewrite IH. reflexivity.
Qed.

(** One cycle: nothing is output when collection or evaluation raises;
    otherwise the alerts are dispatched one by one and the completion
    line is logged. *)
Lemma monitor_once_cases os :
  match monitor_once self os with
  | IO t (Ok (metrics, alerts, report)) =>
      check_thresholds self metrics = Ok alerts /\
      report = generate_report (now_report os) metrics /\
      t = (alerts ≫= alert_events) ++ [Log INFO "System health check completed"]
  | IO t (Raise e) => t = []
  end.
Proof.
  unfold monitor_once.
  destruct (get_memory_usage os) as [memory|e]; [|reflexivity].
  destruct (get_disk_usage os) as [disk|e]; [|reflexivity].
  simpl.
  destruct (check_thresholds self _) as [alerts|e] eqn:Halerts; [|reflexivity].
  simpl. rewrite dispatch_events. simpl. auto.
Qed.

End run_loop.

(** What the cycle sends on a machine with two values over their
    thresholds: a warning line and a printed line for each alert, in
    the evaluator's order, then the completion line. *)
Example monitor_once_sample_trace :
  io_trace (monitor_once default_monitor sample_os) =
  [Log WARNING "🚨 ALERT [THRESHOLD_EXCEEDED]: High CPU usage: 95.0% (threshold: 80.0%)";
   Print (LF +:+ "🚨 ALERT [THRESHOLD_EXCEEDED]: High CPU usage: 95.0% (threshold: 80.0%)"
          +:+ LF);
   Log WARNING
     "🚨 ALERT [THRESHOLD_EXCEEDED]: High disk usage on /: 95.0% (threshold: 90.0%)";
   Print (LF +:+
          "🚨 ALERT [THRESHOLD_EXCEEDED]: High disk usage on /: 95.0% (threshold: 90.0%)"
          +:+ LF);
   Log INFO "System health check completed"].
Proof. reflexivity. Qed.

(** C9: in a cycle every alert of the evaluator goes through the sink
    once, in order: [send_alert] logs it at warning level and prints it,
    and whenever the collectors and the evaluator return, [monitor_once]
    returns too, having called [send_alert] once per element of the
    alert list, nothing merged, dropped or held back, before it logs the
    completion line.  Only when a collector or the evaluator raises is
    nothing sent, and that exception leaves the cycle. *)
Theorem monitor_once_dispatches_each_alert self os :
  (forall alert,
     send_alert self "THRESHOLD_EXCEEDED" alert =
     IO [Log WARNING ("🚨 ALERT [THRESHOLD_EXCEEDED]: " +:+ alert);
         Print (LF +:+ "🚨 ALERT [THRESHOLD_EXCEEDED]: " +:+ alert +:+ LF)] (Ok tt)) /\
  match get_memory_usage os, get_disk_usage os with
  | Ok memory, Ok disk =>
      let metrics :=
        {| m_cpu_percent := get_cpu_usage os; m_memory := memory; m_disk := disk;
           m_process_count := get_process_count os;
           m_top_processes := get_top_processes os 5 |} in
      match check_thresholds self metrics with
      | Ok alerts =>
          monitor_once self os =
          IO ((alert ← alerts;
               io_trace (send_alert self "THRESHOLD_EXCEEDED" alert)) ++
              [Log INFO "System health check completed"])
             (Ok (metrics, alerts, generate_report (now_report os) metrics)) /\
          length (io_trace (monitor_once self os)) = (2 * length alerts + 1)%nat
      | Raise e => monitor_once self os = IO [] (Raise e)
      end
  | Ok _, Raise e => monitor_once self os = IO [] (Raise e)
  | Raise e, _ => monitor_once self os = IO [] (Raise e)
  end.
Proof.
  split; [reflexivity|]. unfold monitor_once.
  destruct (get_memory_usage os) as [memory|e]; [|reflexivity].
  destruct (get_disk_usage os) as [disk|e]; [|reflexivity].
  simpl.
  destruct (check_thresholds self _) as [alerts|e]; [|reflexivity].
  simpl. rewrite dispatch_events. simpl. split; [reflexivity|].
  rewrite length_app. simpl.
  induction alerts as [|a alerts IH]; [reflexivity|].
  rewrite bind_cons, length_app. simpl in *. lia.
Qed.

Section continuous.

Variable self : SystemHealthMonitor.
Variable interval : Z.
Variable env : nat -> Provider.
Hypothesis interval_ok : 0 <= interval.

(** An undisturbed pass ends with the wait. *)
Lemma iteration_ok os v :
  io_result (monitor_once self os) = Ok v ->
  exists outputs,
    iteration self interval os = IO (outputs ++ [Sleep interval]) (Ok tt).
Proof.
  unfold iteration, sleep. destruct (Z.ltb_spec interval 0) as [|_]; [lia|].
  destruct (monitor_once self os) as [t [[[metrics alerts] report]|e]];
    simpl; [intros _|discriminate].
  destruct alerts; simpl.
  - exists (t ++ [Print ("✅ System healthy - " +:+ strftime_time (now_heartbeat os))]).
    rewrite <- app_assoc. reflexivity.
  - exists t. reflexivity.
Qed.

Lemma run_loop_trace n : forall i steps,
  (forall k, (k <= n)%nat -> exists v, io_result (monitor_once self (env (i + k))) = Ok v) ->
  run_loop self interval env i n steps =
  IO ((k ← seq i n; cycle_events self interval (env k)) ++
      take steps (cycle_events self interval (env (i + n)%nat)))
     (Raise KeyboardInterrupt).
Proof.
  induction n as [|n IH]; intros i steps Hok.
  - destruct (Hok 0%nat) as [v Hv]; [lia|]. rewrite Nat.add_0_r in Hv |- *.
    destruct (iteration_ok _ _ Hv) as [outputs Hit].
    unfold cycle_events. simpl. rewrite Hit. unfold interrupt_after. simpl io_trace.
    destruct (Nat.ltb_spec steps (length (outputs ++ [Sleep interval]))) as [|Hge];
      [reflexivity|].
    now rewrite take_ge.
  - destruct (Hok 0%nat) as [v Hv]; [lia|]. rewrite Nat.add_0_r in Hv.
    destruct (iteration_ok _ _ Hv) as [outputs Hit].
    simpl run_loop. rewrite Hit, (IH (S i) steps).
    + simpl seq. rewrite bind_cons. unfold cycle_events at 3. rewrite Hit.
      simpl. rewrite <- !app_assoc, Nat.add_succ_r. reflexivity.
    + intros k Hk. replace (S i + k)%nat with (i + S k)%nat by lia.
      apply Hok. lia.
Qed.

Lemma monitor_continuous_trace completed steps :
  cycles_ok self env completed ->
  monitor_continuous self interval env completed steps =
  IO (start_events self interval ++ completed_cycles self interval env completed ++
      take steps (cycle_events self interval (env completed)) ++ stop_events)
     (Ok tt).
Proof.
  intros Hok. unfold monitor_continuous.
  rewrite (run_loop_trace completed 0 steps) by (intros k Hk; apply Hok; lia).
  simpl. unfold completed_cycles, stop_events. rewrite <- !app_assoc. reflexivity.
Qed.

End continuous.

(** C7 (amended): a stop request raised anywhere inside the loop is
    caught: what the loop had output stays, the rest of the cycle in
    progress is skipped, the stop notice is logged and printed and the
    call returns normally.  When the request arrives during the wait
    between two cycles, every cycle that was started is complete. *)
Theorem monitor_continuous_stop self interval env completed steps :
  0 <= interval ->
  cycles_ok self env completed ->
  monitor_continuous self interval env completed steps =
    IO (start_events self interval ++ completed_cycles self interval env completed ++
        take steps (cycle_events self interval (env completed)) ++ stop_events)
       (Ok tt) /\
  exists outputs,
    cycle_events self interval (env completed) = outputs ++ [Sleep interval] /\
    stops_between_cycles self interval env
      (monitor_continuous self interval env completed (length outputs)).
Proof.
  intros Hint Hok. split; [now apply monitor_continuous_trace|].
  destruct (Hok completed) as [v Hv]; [lia|].
  destruct (iteration_ok self interval Hint _ _ Hv) as [outputs Hit].
  assert (Hc : cycle_events self interval (env completed) = outputs ++ [Sleep interval])
    by (unfold cycle_events; now rewrite Hit).
  exists outputs. split; [exact Hc|]. exists completed, outputs. split; [exact Hc|].
  rewrite monitor_continuous_trace by assumption.
  now rewrite Hc, take_app_length.
Qed.

Lemma monitor_continuous_stop_witness :
  monitor_continuous default_monitor 60 (fun _ => sample_os) 1 2 =
    IO (start_events default_monitor 60 ++
        completed_cycles default_monitor 60 (fun _ => sample_os) 1 ++
        take 2 (cycle_events default_monitor 60 sample_os) ++ stop_events)
       (Ok tt) /\
  exists outputs,
    cycle_events default_monitor 60 sample_os = outputs ++ [Sleep 60] /\
    stops_between_cycles default_monitor 60 (fun _ => sample_os)
      (monitor_continuous default_monitor 60 (fun _ => sample_os) 1 (length outputs)).
Proof.
  apply (monitor_continuous_stop default_monitor 60 (fun _ => sample_os) 1 2).
  - lia.
  - intros i _. eexists. vm_compute. reflexivity.
Defined.

(** C7 as stated fails: a stop request that arrives after the first
    event of a cycle cuts that cycle short; the run is not one that was
    stopped between two cycles. *)
Lemma cancellation_mid_cycle_counterexample :
  io_trace (monitor_continuous default_monitor 60 (fun _ => sample_os) 0 1) =
    start_events default_monitor 60 ++
    [Log WARNING "🚨 ALERT [THRESHOLD_EXCEEDED]: High CPU usage: 95.0% (threshold: 80.0%)"] ++
    stop_events /\
  length (cycle_events default_monitor 60 sample_os) = 6%nat /\
  ~ stops_between_cycles default_monitor 60 (fun _ => sample_os)
      (monitor_continuous default_monitor 60 (fun _ => sample_os) 0 1).
Proof.
  split; [reflexivity|]. split; [reflexivity|].
  intros (n & outputs & Hc & Hrun).
  assert (Hlen : length (io_trace (monitor_continuous default_monitor 60
                                     (fun _ => sample_os) 0 1)) = 5%nat)
    by reflexivity.
  assert (Hce : length (cycle_events default_monitor 60 sample_os) = 6%nat)
    by reflexivity.
  rewrite Hrun in Hlen. rewrite Hc in Hce. unfold io_trace in Hlen.
  rewrite !length_app in Hlen, Hce. simpl length in Hlen, Hce.
  rewrite !length_app in Hlen. simpl length in Hlen. lia.
Qed.

(** ** Further properties of the collection *)

Section collection_more.

Lemma for_each_app {A S : Type} (body : S -> A -> result S) (l1 l2 : list A) (s : S) :
  for_each body (l1 ++ l2) s = (s' ← for_each body l1 s; for_each body l2 s').
Proof.
  revert s. induction l1 as [|x l1 IH]; intros s; simpl; [reflexivity|].
  destruct (body s x) as [s'|e]; simpl; [apply IH | reflexivity].
Qed.

(** Assigning a key that the dictionary does not hold puts it last. *)
Lemma dict_set_fresh {V : Type} (d : list (string * V)) k v :
  k ∉ d.*1 -> dict_set d k v = d ++ [(k, v)].
Proof.
  induction d as [|[k0 v0] d IH]; csimpl; intros Hk; [reflexivity|].
  apply not_elem_of_cons in Hk as [Hne Hk].
  destruct (String.eqb_spec k0 k) as [->|_]; [congruence|].
  now rewrite IH.
Qed.

Lemma get_disk_usage_loop_order os l acc :
  (forall m, m ∈ l ->
     disk_usage os m = Raise PermissionError \/
     exists u, disk_usage os m = Ok u /\ usage_ok u) ->
  NoDup l -> (forall m, m ∈ l -> m ∉ acc.*1) ->
  exists d,
    for_each
      (fun disk_info mountpoint =>
         match disk_usage os mountpoint with
         | Ok usage =>
             entry ← disk_entry usage; Ok (dict_set disk_info mountpoint entry)
         | Raise PermissionError => Ok disk_info
         | Raise e => Raise e
         end) l acc = Ok d /\
    d.*1 = acc.*1 ++ filter (fun m => is_readable os m = true) l.
Proof.
  revert acc. induction l as [|m0 l IH]; intros acc Hl Hnd Hfresh; simpl.
  - exists acc. split; [reflexivity|]. now rewrite app_nil_r.
  - apply NoDup_cons in Hnd as [Hm0 Hnd].
    destruct (Hl m0) as [Hdenied|(u & Hu & Hok)]; [left|..].
    + assert (Hr : is_readable os m0 = false)
        by (unfold is_readable; now rewrite Hdenied).
      rewrite filter_cons, decide_False by (rewrite Hr; discriminate).
      rewrite Hdenied. simpl.
      apply IH; [intros; apply Hl; now right | assumption |].
      intros m Hm. apply Hfresh. now right.
    + assert (Hr : is_readable os m0 = true)
        by (unfold is_readable; now rewrite Hu).
      rewrite filter_cons, decide_True by exact Hr.
      rewrite Hu. destruct (disk_entry_ok u Hok) as (q & e & _ & He & _).
      rewrite He. simpl.
      rewrite dict_set_fresh by (apply Hfresh; left).
      destruct (IH (acc ++ [(m0, e)])) as (d & Hd & Hkeys).
      * intros; apply Hl; now right.
      * assumption.
      * intros m Hm. rewrite fmap_app, elem_of_app. csimpl.
        rewrite list_elem_of_singleton. intros [Hin| ->]; [|contradiction].
        revert Hin. apply Hfresh. now right.
      * exists d. split; [assumption|]. rewrite Hkeys, fmap_app, <- app_assoc.
        reflexivity.
Qed.

Lemma binary_round_aux_sign sx mx ex lx :
  is_negative (binary_round_aux prec emax sx mx ex lx) = true -> sx = true.
Proof.
  unfold binary_round_aux.
  destruct (shr_fexp prec emax mx ex lx) as [mrs' e'].
  destruct (shr_fexp prec emax _ e' loc_Exact) as [mrs'' e''].
  destruct (shr_m mrs''); [|destruct (e'' <=? emax - prec)|]; simpl; congruence.
Qed.

Lemma int_truediv_nonneg a b q :
  0 <= a -> 0 < b -> int_truediv a b = Ok q -> is_negative q = false.
Proof.
  intros Ha Hb. unfold int_truediv.
  destruct (b =? 0); [discriminate|].
  destruct (Z.eqb_spec a 0) as [_|Hne].
  - intros [= <-]. simpl. apply Z.ltb_ge. lia.
  - destruct (_ <=? _); [discriminate|]. intros [= <-].
    replace (a <? 0) with false by (symmetry; apply Z.ltb_ge; lia).
    replace (b <? 0) with false by (symmetry; apply Z.ltb_ge; lia).
    unfold SFdiv. destruct (SFdiv_core_binary _ _ _ _ _ _) as [[mz ez] lz].
    destruct (is_negative _) eqn:E; [|reflexivity].
    apply binary_round_aux_sign in E. discriminate E.
Qed.

Lemma round2_sign x : is_negative (round2 x) = true -> is_negative x = true.
Proof.
  destruct x as [s|s| |s m e]; simpl; try (intros H; exact H).
  destruct (scaled_round m e 100); simpl; try (intros H; exact H).
  unfold SFdiv. destruct (SFdiv_core_binary _ _ _ _ _ _) as [[mz ez] lz].
  intros H%binary_round_aux_sign. now destruct s.
Qed.

Lemma bytes_to_gb_nonneg n g :
  0 <= n -> bytes_to_gb n = Ok g -> is_negative g = false.
Proof.
  intros Hn. unfold bytes_to_gb.
  destruct (int_truediv n (1024 ^ 3)) as [q|e] eqn:Hq; [|discriminate].
  simpl. intros [= <-]. apply int_truediv_nonneg in Hq; [|lia..].
  destruct (is_negative (round2 q)) eqn:E; [|reflexivity].
  apply round2_sign in E. congruence.
Qed.

End collection_more.

(** X1: with every mount readable (non-zero size) or refused, and no
    mount point listed twice, the disk map lists the readable mounts in
    the order of enumeration. *)
Theorem get_disk_usage_key_order os :
  readable_or_denied os ->
  NoDup (disk_partitions os) ->
  exists disk_info,
    get_disk_usage os = Ok disk_info /\
    disk_info.*1 = filter (fun m => is_readable os m = true) (disk_partitions os).
Proof.
  intros Hos Hnd.
  destruct (get_disk_usage_loop_order os (disk_partitions os) [] Hos Hnd)
    as (d & Hd & Hkeys).
  - intros m _. apply not_elem_of_nil.
  - exists d. split; assumption.
Qed.

Lemma get_disk_usage_key_order_witness :
  exists disk_info,
    get_disk_usage sample_os = Ok disk_info /\
    disk_info.*1 =
    filter (fun m => is_readable sample_os m = true) (disk_partitions sample_os).
Proof.
  apply (get_disk_usage_key_order sample_os).
  - intros m _. simpl. destruct (String.eqb m "/"); [right|now left].
    eexists. split; [reflexivity|]. split; unfold byte_count; simpl; lia.
  - compute_done.
Defined.

(** X2: an error of a usage read other than the access error is not
    swallowed: it leaves [get_disk_usage], whatever was collected from
    the mounts before it. *)
Theorem get_disk_usage_other_error os before m after e :
  disk_partitions os = before ++ m :: after ->
  (forall m', m' ∈ before ->
     disk_usage os m' = Raise PermissionError \/
     exists u, disk_usage os m' = Ok u /\ usage_ok u) ->
  disk_usage os m = Raise e ->
  e <> PermissionError ->
  get_disk_usage os = Raise e.
Proof.
  intros Hparts Hbefore Hm He. unfold get_disk_usage.
  rewrite Hparts, for_each_app.
  destruct (get_disk_usage_loop os before [] Hbefore) as (d & -> & _).
  - split; [constructor | intros m' e' []%elem_of_nil].
  - simpl. rewrite Hm. destruct e; simpl; congruence.
Qed.

Lemma get_disk_usage_other_error_witness :
  get_disk_usage broken_mount_os = Raise OSError.
Proof.
  apply (get_disk_usage_other_error broken_mount_os ["/"] "/mnt/gone" ["/data"]).
  - reflexivity.
  - intros m' ->%list_elem_of_singleton. right. eexists. split; [reflexivity|].
    split; unfold byte_count; simpl; lia.
  - reflexivity.
  - discriminate.
Defined.

(** X3: for byte counts as the operating system reports them, the
    memory collection does not raise; it passes the percentage through
    as it is and its three sizes in gigabytes are not negative. *)
Theorem get_memory_usage_ok os :
  byte_count (vm_used (virtual_memory os)) ->
  byte_count (vm_total (virtual_memory os)) ->
  byte_count (vm_available (virtual_memory os)) ->
  exists memory,
    get_memory_usage os = Ok memory /\
    mem_percent memory = vm_percent (virtual_memory os) /\
    bytes_to_gb (vm_used (virtual_memory os)) = Ok (mem_used memory) /\
    bytes_to_gb (vm_total (virtual_memory os)) = Ok (mem_total memory) /\
    bytes_to_gb (vm_available (virtual_memory os)) = Ok (mem_available memory) /\
    is_negative (mem_used memory) = false /\
    is_negative (mem_total memory) = false /\
    is_negative (mem_available memory) = false.
Proof.
  intros Hu Ht Ha. unfold get_memory_usage.
  destruct (bytes_to_gb_ok _ Hu) as [gu Hgu], (bytes_to_gb_ok _ Ht) as [gt Hgt],
    (bytes_to_gb_ok _ Ha) as [ga Hga].
  rewrite Hgu, Hgt, Hga. simpl. eexists. split; [reflexivity|]. simpl.
  repeat split; try reflexivity;
    eapply bytes_to_gb_nonneg; try eassumption; unfold byte_count in *; lia.
Qed.

Lemma get_memory_usage_ok_witness :
  exists memory,
    get_memory_usage sample_os = Ok memory /\
    mem_percent memory = vm_percent (virtual_memory sample_os) /\
    bytes_to_gb (vm_used (virtual_memory sample_os)) = Ok (mem_used memory) /\
    bytes_to_gb (vm_total (virtual_memory sample_os)) = Ok (mem_total memory) /\
    bytes_to_gb (vm_available (virtual_memory sample_os)) = Ok (mem_available memory) /\
    is_negative (mem_used memory) = false /\
    is_negative (mem_total memory) = false /\
    is_negative (mem_available memory) = false.
Proof.
  apply (get_memory_usage_ok sample_os); unfold byte_count; simpl; lia.
Defined.

(** X4: [get_top_processes] returns readable processes only, and their
    number is the smaller of [limit] and the number of readable processes
    for a limit that is not negative, and that number less [-limit] (or
    none) for a negative one. *)
Theorem get_top_processes_length os limit :
  Z.of_nat (length (get_top_processes os limit)) =
    (if 0 <=? limit
     then Z.min limit (Z.of_nat (length (readable_processes os)))
     else Z.max 0 (Z.of_nat (length (readable_processes os)) + limit)) /\
  (forall p, p ∈ get_top_processes os limit -> p ∈ readable_processes os).
Proof.
  rewrite get_top_processes_unfold. unfold slice_to.
  pose proof (Permutation_length (sorted_reverse_perm sort_key (readable_processes os)))
    as Hlen.
  split.
  - destruct (Z.leb_spec 0 limit); rewrite length_take, Hlen; lia.
  - intros p Hp. rewrite <- (sorted_reverse_perm sort_key).
    destruct (0 <=? limit); apply elem_of_take in Hp as (i & Hi & _);
      eapply list_elem_of_lookup_2; eassumption.
Qed.

(** ** Further properties of the evaluator *)

Section evaluator_more.

Lemma gt_float_cases x t :
  gt (PyFloat x) t = if is_number t then Ok (exceeds (PyFloat x) t) else Raise TypeError.
Proof. destruct t; reflexivity. Qed.

Lemma gt_int_cases n t :
  gt (PyInt n) t = if is_number t then Ok (exceeds (PyInt n) t) else Raise TypeError.
Proof. destruct t; reflexivity. Qed.

(** The disk loop with a threshold that is not a number: it raises at
    the first mount, and passes when there is none. *)
Lemma disk_loop_not_number self td (disk : list (string * DiskStats)) alerts :
  thresholds self !! "disk_percent" = Some td -> is_number td = false ->
  for_each
    (fun alerts '(mount, disk_data) =>
       t ← getitem (thresholds self) "disk_percent";
       b ← gt (PyFloat (disk_percent disk_data)) t;
       Ok (if b : bool then alerts ++ [disk_alert mount (disk_percent disk_data) t]
           else alerts))
    disk alerts =
  match disk with
  | [] => Ok alerts
  | _ => Raise TypeError
  end.
Proof.
  intros Hd Hn. destruct disk as [|[mount d] disk]; [reflexivity|].
  simpl. unfold getitem. rewrite Hd. simpl. rewrite gt_float_cases, Hn. reflexivity.
Qed.

(** The disk loop with a numeric threshold. *)
Lemma disk_loop_number self td (disk : list (string * DiskStats)) alerts :
  thresholds self !! "disk_percent" = Some td -> is_number td = true ->
  for_each
    (fun alerts '(mount, disk_data) =>
       t ← getitem (thresholds self) "disk_percent";
       b ← gt (PyFloat (disk_percent disk_data)) t;
       Ok (if b : bool then alerts ++ [disk_alert mount (disk_percent disk_data) t]
           else alerts))
    disk alerts =
  Ok (alerts ++
      (md ← disk;
       if exceeds (PyFloat (disk_percent md.2)) td
       then [disk_alert md.1 (disk_percent md.2) td] else [])).
Proof.
  intros Hd Hn.
  erewrite for_each_ok with
    (f := fun acc md =>
            acc ++ (if exceeds (PyFloat (disk_percent md.2)) td
                    then [disk_alert md.1 (disk_percent md.2) td] else [])).
  - now rewrite fold_left_append.
  - intros s [mount d] _. unfold getitem. rewrite Hd. simpl.
    rewrite gt_float_cases, Hn. simpl.
    destruct (exceeds _ _); [reflexivity | now rewrite app_nil_r].
Qed.

(** The evaluator on a mapping that holds the four recognised keys. *)
Lemma check_thresholds_cases self tc tm td tp metrics :
  thresholds self !! "cpu_percent" = Some tc ->
  thresholds self !! "memory_percent" = Some tm ->
  thresholds self !! "disk_percent" = Some td ->
  thresholds self !! "max_processes" = Some tp ->
  check_thresholds self metrics =
  if negb (is_number tc) then Raise TypeError
  else if negb (is_number tm) then Raise TypeError
  else if negb (is_number td) && negb (bool_decide (m_disk metrics = []))
       then Raise TypeError
  else if negb (is_number tp) then Raise TypeError
  else Ok (cpu_part metrics tc ++ memory_part metrics tm ++
           (if is_number td then disk_part metrics td else []) ++
           process_part metrics tp).
Proof.
  intros Hc Hm Hd Hp. unfold check_thresholds.
  assert (Hget : forall k v, thresholds self !! k = Some v ->
                             getitem (thresholds self) k = Ok v)
    by (intros k v H; unfold getitem; now rewrite H).
  rewrite (Hget _ _ Hc), (Hget _ _ Hm), (Hget _ _ Hp). simpl.
  rewrite (gt_float_cases _ tc), (gt_float_cases _ tm), (gt_int_cases _ tp).
  destruct (is_number tc); [|reflexivity]. simpl.
  destruct (is_number tm); [|reflexivity]. simpl.
  destruct (is_number td) eqn:Hn.
  - rewrite (disk_loop_number self td) by assumption. simpl.
    destruct (is_number tp); [|reflexivity]. simpl.
    unfold cpu_part, memory_part, disk_part, process_part. f_equal.
    destruct (exceeds (PyFloat (m_cpu_percent metrics)) tc),
             (exceeds (PyFloat (mem_percent (m_memory metrics))) tm),
             (exceeds (PyInt (m_process_count metrics)) tp);
      simpl; rewrite ?app_nil_r, <- ?app_assoc; reflexivity.
  - rewrite (disk_loop_not_number self td) by assumption.
    destruct (m_disk metrics) as [|md disk]; [|reflexivity]. simpl.
    destruct (is_number tp); [|reflexivity]. simpl.
    unfold cpu_part, memory_part, process_part. f_equal.
    destruct (exceeds (PyFloat (m_cpu_percent metrics)) tc),
             (exceeds (PyFloat (mem_percent (m_memory metrics))) tm),
             (exceeds (PyInt (m_process_count metrics)) tp);
      simpl; reflexivity.
Qed.

(** [__init__] leaves every recognised key in the mapping. *)
Lemma init_keeps_recognised cf self k :
  __init__ cf = Ok self -> recognised k -> is_Some (thresholds self !! k).
Proof.
  intros Hinit Hk.
  assert (Hdef : is_Some (default_thresholds !! k)).
  { unfold recognised in Hk. rewrite !elem_of_cons, elem_of_nil in Hk.
    destruct Hk as [->|[->|[->|[->|[]]]]]; eexists; reflexivity. }
  destruct cf as [| |c]; simpl in Hinit; [|discriminate|]; injection Hinit as <-.
  - exact Hdef.
  - rewrite init_document_lookup. destruct (config_get_thresholds c !! k); eauto.
Qed.

Lemma exceeds_at_least v t' t :
  exceeds v t' = true -> at_least t' t -> exceeds v t = true.
Proof.
  unfold at_least, exceeds, equals, opt_gt, opt_eq, opt_compare.
  destruct (exact_value v) as [x|], (exact_value t') as [y'|], (exact_value t) as [y|];
    try (intros Hx; discriminate Hx);
    try (intros _ [Hy|Hy]; discriminate Hy).
  intros Hx Hy.
  pose proof (xreal_le_trans x y y') as Ht.
  rewrite (xreal_compare_antisym y' y) in Ht.
  destruct (xreal_compare x y') eqn:E1; try discriminate Hx.
  destruct (xreal_compare x y) eqn:E2; try reflexivity; exfalso;
    (apply Ht; [discriminate| |reflexivity]);
    destruct (xreal_compare y' y); simpl; destruct Hy; congruence.
Qed.

Lemma part_length_le (b b' : bool) (a a' : string) :
  (b' = true -> b = true) ->
  (length (if b' then [a'] else []) <= length (if b then [a] else []))%nat.
Proof. destruct b, b'; simpl; intros H; lia. Qed.

End evaluator_more.

Lemma disk_alerts_NoDup td (l : list (string * DiskStats)) :
  NoDup l.*1 ->
  NoDup (md ← l;
         if exceeds (PyFloat (disk_percent md.2)) td
         then [disk_alert md.1 (disk_percent md.2) td] else []).
Proof.
  induction l as [|[m0 d0] l IH]; csimpl; intros Hnd; [constructor|].
  apply NoDup_cons in Hnd as [Hm0 Hnd]. apply NoDup_app. split; [|split].
  - destruct (exceeds _ _); [apply NoDup_singleton | constructor].
  - intros a Ha Hin. apply list_elem_of_bind in Hin as ([m d] & Hin & Hmd).
    simpl in Hin. apply Hm0.
    destruct (exceeds (PyFloat (disk_percent d0)) td);
      [apply list_elem_of_singleton in Ha | now apply elem_of_nil in Ha].
    destruct (exceeds (PyFloat (disk_percent d)) td);
      [apply list_elem_of_singleton in Hin | now apply elem_of_nil in Hin].
    subst a. apply disk_alert_mount in Hin as ->.
    apply list_elem_of_fmap. now exists (m, d).
  - now apply IH.
Qed.

(** X5: a monitor built by [__init__] holds the four recognised keys,
    whatever the configuration file contains, so the evaluator never
    fails on a missing key: it returns alerts or raises [TypeError]. *)
Theorem check_after_init_no_KeyError cf self metrics :
  __init__ cf = Ok self ->
  (forall k, recognised k -> is_Some (thresholds self !! k)) /\
  ((exists alerts, check_thresholds self metrics = Ok alerts) \/
   check_thresholds self metrics = Raise TypeError).
Proof.
  intros Hinit. split; [intros k; now apply (init_keeps_recognised cf)|].
  assert (Hr : forall k, k ∈ ["cpu_percent"; "memory_percent"; "disk_percent";
                              "max_processes"] -> recognised k) by auto.
  destruct (init_keeps_recognised cf self "cpu_percent" Hinit) as [tc Hc];
    [apply Hr; set_solver|].
  destruct (init_keeps_recognised cf self "memory_percent" Hinit) as [tm Hm];
    [apply Hr; set_solver|].
  destruct (init_keeps_recognised cf self "disk_percent" Hinit) as [td Hd];
    [apply Hr; set_solver|].
  destruct (init_keeps_recognised cf self "max_processes" Hinit) as [tp Hp];
    [apply Hr; set_solver|].
  rewrite (check_thresholds_cases self tc tm td tp) by assumption.
  destruct (negb (is_number tc)); [now right|].
  destruct (negb (is_number tm)); [now right|].
  destruct (negb (is_number td) && _); [now right|].
  destruct (negb (is_number tp)); [now right|]. left. eauto.
Qed.

Lemma check_after_init_no_KeyError_witness :
  (forall k, recognised k -> is_Some (thresholds default_monitor !! k)) /\
  ((exists alerts, check_thresholds default_monitor sample_metrics = Ok alerts) \/
   check_thresholds default_monitor sample_metrics = Raise TypeError).
Proof.
  apply (check_after_init_no_KeyError NoFile default_monitor sample_metrics).
  reflexivity.
Defined.

(** X6: the evaluator raises [TypeError] exactly when a threshold it
    compares is not a number; the disk threshold is compared once per
    mount, so a disk threshold that is not a number goes unnoticed while
    the disk map is empty, and the other three checks are then answered. *)
Theorem check_thresholds_type_error self tc tm td tp metrics :
  thresholds self !! "cpu_percent" = Some tc ->
  thresholds self !! "memory_percent" = Some tm ->
  thresholds self !! "disk_percent" = Some td ->
  thresholds self !! "max_processes" = Some tp ->
  (check_thresholds self metrics = Raise TypeError <->
   is_number tc = false \/ is_number tm = false \/ is_number tp = false \/
   (is_number td = false /\ m_disk metrics <> [])) /\
  (is_number tc = true -> is_number tm = true -> is_number tp = true ->
   is_number td = false -> m_disk metrics = [] ->
   check_thresholds self metrics =
   Ok (cpu_part metrics tc ++ memory_part metrics tm ++ process_part metrics tp)).
Proof.
  intros Hc Hm Hd Hp.
  rewrite (check_thresholds_cases self tc tm td tp) by assumption.
  destruct (is_number tc); simpl;
    [|split; [split; [auto 6 | auto] | discriminate]].
  destruct (is_number tm); simpl;
    [|split; [split; [auto 6 | auto] | discriminate]].
  destruct (is_number td); simpl.
  - destruct (is_number tp); simpl.
    + split; [|discriminate]. split; [discriminate|].
      intros [?|[?|[?|[? _]]]]; discriminate.
    + split; [|discriminate]. split; [auto 6 | auto].
  - case_bool_decide as Hdisk; simpl.
    + destruct (is_number tp); simpl.
      * split; [|reflexivity]. split; [discriminate|].
        intros [?|[?|[?|[_ ?]]]]; try discriminate; contradiction.
      * split; [|discriminate]. split; [auto 6 | auto].
    + split; [|intros _ _ _ _ ?; contradiction].
      split; [intros _; do 3 right; auto | auto].
Qed.

Lemma check_thresholds_type_error_witness :
  (check_thresholds text_threshold_monitor sample_metrics = Raise TypeError <->
   is_number (PyFloat f80) = false \/ is_number (PyFloat f85) = false \/
   is_number (PyInt 300) = false \/
   (is_number (PyStr "high") = false /\ m_disk sample_metrics <> [])) /\
  (is_number (PyFloat f80) = true -> is_number (PyFloat f85) = true ->
   is_number (PyInt 300) = true ->
   is_number (PyStr "high") = false -> m_disk sample_metrics = [] ->
   check_thresholds text_threshold_monitor sample_metrics =
   Ok (cpu_part sample_metrics (PyFloat f80) ++
       memory_part sample_metrics (PyFloat f85) ++
       process_part sample_metrics (PyInt 300))).
Proof.
  apply (check_thresholds_type_error text_threshold_monitor); reflexivity.
Defined.

(** X7: with numeric thresholds the evaluator returns the empty list
    exactly when no value exceeds its threshold, and never more than one
    alert per check: at most three plus one per mount. *)
Theorem check_thresholds_no_alerts_iff self tc tm td tp metrics :
  numeric_thresholds self tc tm td tp ->
  (check_thresholds self metrics = Ok [] <->
   exceeds (PyFloat (m_cpu_percent metrics)) tc = false /\
   exceeds (PyFloat (mem_percent (m_memory metrics))) tm = false /\
   Forall (fun md => exceeds (PyFloat (disk_percent md.2)) td = false)
          (m_disk metrics) /\
   exceeds (PyInt (m_process_count metrics)) tp = false) /\
  exists alerts,
    check_thresholds self metrics = Ok alerts /\
    (length alerts <= 3 + length (m_disk metrics))%nat.
Proof.
  intros Hn. rewrite (check_thresholds_parts _ _ _ _ _ Hn).
  assert (Hdisk : disk_part metrics td = [] <->
                  Forall (fun md => exceeds (PyFloat (disk_percent md.2)) td = false)
                         (m_disk metrics)).
  { unfold disk_part. induction (m_disk metrics) as [|md l IH]; [now split|].
    rewrite bind_cons, Forall_cons, <- IH.
    destruct (exceeds (PyFloat (disk_percent md.2)) td); simpl; [|tauto].
    split; [discriminate | intros [? _]; discriminate]. }
  assert (Hlen : (length (disk_part metrics td) <= length (m_disk metrics))%nat).
  { clear Hdisk. unfold disk_part.
    induction (m_disk metrics) as [|md l IH]; [reflexivity|].
    rewrite bind_cons, length_app.
    assert (length (if exceeds (PyFloat (disk_percent md.2)) td
                    then [disk_alert md.1 (disk_percent md.2) td] else []) <= 1)%nat
      by (destruct (exceeds _ _); simpl; lia).
    cbn [length]. lia. }
  split.
  - rewrite <- Hdisk. unfold cpu_part, memory_part, process_part.
    destruct (exceeds (PyFloat (m_cpu_percent metrics)) tc),
             (exceeds (PyFloat (mem_percent (m_memory metrics))) tm),
             (exceeds (PyInt (m_process_count metrics)) tp); simpl;
      try (split; [discriminate | intros (? & ? & ? & ?); discriminate]);
      try (split; [intros [= [_ H]%app_eq_nil]; discriminate H
                  | intros (? & ? & ? & ?); discriminate]).
    rewrite app_nil_r. split.
    + intros [= ->]. auto.
    + intros (_ & _ & -> & _). reflexivity.
  - eexists. split; [reflexivity|]. rewrite !length_app.
    unfold cpu_part, memory_part, process_part.
    destruct (exceeds (PyFloat (m_cpu_percent metrics)) tc),
             (exceeds (PyFloat (mem_percent (m_memory metrics))) tm),
             (exceeds (PyInt (m_process_count metrics)) tp); simpl; lia.
Qed.

Lemma check_thresholds_no_alerts_iff_witness :
  (check_thresholds default_monitor sample_metrics = Ok [] <->
   exceeds (PyFloat (m_cpu_percent sample_metrics)) (PyFloat f80) = false /\
   exceeds (PyFloat (mem_percent (m_memory sample_metrics))) (PyFloat f85) = false /\
   Forall (fun md => exceeds (PyFloat (disk_percent md.2)) (PyFloat f90) = false)
          (m_disk sample_metrics) /\
   exceeds (PyInt (m_process_count sample_metrics)) (PyInt 300) = false) /\
  exists alerts,
    check_thresholds default_monitor sample_metrics = Ok alerts /\
    (length alerts <= 3 + length (m_disk sample_metrics))%nat.
Proof.
  apply (check_thresholds_no_alerts_iff default_monitor).
  split; reflexivity.
Defined.

(** X8: raising thresholds never adds alerts: when each of the four
    thresholds of a second monitor is at least the one of the first, the
    second returns no more alerts than the first on the same snapshot. *)
Theorem raising_thresholds_fewer_alerts
    self tc tm td tp self' tc' tm' td' tp' metrics :
  numeric_thresholds self tc tm td tp ->
  numeric_thresholds self' tc' tm' td' tp' ->
  at_least tc' tc -> at_least tm' tm -> at_least td' td -> at_least tp' tp ->
  exists alerts alerts',
    check_thresholds self metrics = Ok alerts /\
    check_thresholds self' metrics = Ok alerts' /\
    (length alerts' <= length alerts)%nat.
Proof.
  intros Hn Hn' Hc Hm Hd Hp.
  rewrite (check_thresholds_parts _ _ _ _ _ Hn), (check_thresholds_parts _ _ _ _ _ Hn').
  do 2 eexists. split; [reflexivity|]. split; [reflexivity|].
  rewrite !length_app. unfold cpu_part, memory_part, process_part.
  pose proof (part_length_le
                (exceeds (PyFloat (m_cpu_percent metrics)) tc)
                (exceeds (PyFloat (m_cpu_percent metrics)) tc')
                (cpu_alert (m_cpu_percent metrics) tc)
                (cpu_alert (m_cpu_percent metrics) tc')
                (fun H => exceeds_at_least _ _ _ H Hc)) as H1.
  pose proof (part_length_le
                (exceeds (PyFloat (mem_percent (m_memory metrics))) tm)
                (exceeds (PyFloat (mem_percent (m_memory metrics))) tm')
                (memory_alert (mem_percent (m_memory metrics)) tm)
                (memory_alert (mem_percent (m_memory metrics)) tm')
                (fun H => exceeds_at_least _ _ _ H Hm)) as H2.
  pose proof (part_length_le
                (exceeds (PyInt (m_process_count metrics)) tp)
                (exceeds (PyInt (m_process_count metrics)) tp')
                (process_alert (m_process_count metrics) tp)
                (process_alert (m_process_count metrics) tp')
                (fun H => exceeds_at_least _ _ _ H Hp)) as H3.
  assert (H4 : (length (disk_part metrics td') <= length (disk_part metrics td))%nat).
  { unfold disk_part. induction (m_disk metrics) as [|md l IH]; [reflexivity|].
    rewrite !bind_cons, !length_app.
    pose proof (part_length_le
                  (exceeds (PyFloat (disk_percent md.2)) td)
                  (exceeds (PyFloat (disk_percent md.2)) td')
                  (disk_alert md.1 (disk_percent md.2) td)
                  (disk_alert md.1 (disk_percent md.2) td')
                  (fun H => exceeds_at_least _ _ _ H Hd)). lia. }
  lia.
Qed.

Lemma lenient_monitor_numeric :
  numeric_thresholds lenient_monitor
    (PyInt 99) (PyFloat f95) (PyFloat f95) (PyInt 500).
Proof. split; reflexivity. Qed.

Lemma raising_thresholds_fewer_alerts_witness :
  exists alerts alerts',
    check_thresholds default_monitor sample_metrics = Ok alerts /\
    check_thresholds lenient_monitor sample_metrics = Ok alerts' /\
    (length alerts' <= length alerts)%nat.
Proof.
  apply (raising_thresholds_fewer_alerts
           default_monitor (PyFloat f80) (PyFloat f85) (PyFloat f90) (PyInt 300)
           lenient_monitor (PyInt 99) (PyFloat f95) (PyFloat f95) (PyInt 500)).
  - split; reflexivity.
  - split; reflexivity.
  - left. vm_compute. reflexivity.
  - left. vm_compute. reflexivity.
  - left. vm_compute. reflexivity.
  - left. vm_compute. reflexivity.
Defined.

(** X9: with numeric thresholds and a disk dictionary, no alert text
    occurs twice in the evaluator's output. *)
Theorem check_thresholds_alerts_distinct self tc tm td tp metrics :
  numeric_thresholds self tc tm td tp ->
  NoDup (m_disk metrics).*1 ->
  exists alerts, check_thresholds self metrics = Ok alerts /\ NoDup alerts.
Proof.
  intros Hn Hd. rewrite (check_thresholds_parts _ _ _ _ _ Hn).
  eexists. split; [reflexivity|].
  assert (Hone : forall (b : bool) (a : string), NoDup (if b then [a] else []))
    by (intros [] a; [apply NoDup_singleton | constructor]).
  rewrite !NoDup_app. repeat split.
  - apply Hone.
  - intros a [-> _]%elem_of_cpu_part.
    rewrite !elem_of_app, elem_of_memory_part, elem_of_disk_part, elem_of_process_part.
    intros [[E _]|[(m & d & _ & E & _)|[E _]]].
    + eapply cpu_alert_not_memory, E.
    + eapply cpu_alert_not_disk, E.
    + eapply cpu_alert_not_process, E.
  - apply Hone.
  - intros a [-> _]%elem_of_memory_part.
    rewrite !elem_of_app, elem_of_disk_part, elem_of_process_part.
    intros [(m & d & _ & E & _)|[E _]].
    + eapply memory_alert_not_disk, E.
    + eapply memory_alert_not_process, E.
  - now apply disk_alerts_NoDup.
  - intros a (m & d & _ & -> & _)%elem_of_disk_part [E _]%elem_of_process_part.
    eapply disk_alert_not_process, E.
  - apply Hone.
Qed.

Lemma check_thresholds_alerts_distinct_witness :
  exists alerts,
    check_thresholds default_monitor sample_metrics = Ok alerts /\ NoDup alerts.
Proof.
  apply (check_thresholds_alerts_distinct default_monitor
           (PyFloat f80) (PyFloat f85) (PyFloat f90) (PyInt 300)).
  - split; reflexivity.
  - compute_done.
Defined.

(** ** Further properties of the run loop and of [main] *)

Section loop_more.

Variable self : SystemHealthMonitor.
Variable interval : Z.

Lemma heartbeat_not_alert_event os (alerts : list string) :
  heartbeat os ∉ (alerts ≫= alert_events) ++ [Log INFO "System health check completed"].
Proof.
  rewrite elem_of_app, list_elem_of_singleton, list_elem_of_bind.
  intros [(a & Ha & _)|H]; [|discriminate H].
  unfold alert_events in Ha. rewrite !elem_of_cons, elem_of_nil in Ha.
  destruct Ha as [H|[H|[]]]; discriminate H.
Qed.

Lemma iteration_cases os :
  match monitor_once self os with
  | IO t (Ok (metrics, alerts, report)) =>
      iteration self interval os =
      let 'IO t' r := sleep interval in
      IO (t ++ (if bool_decide (alerts = []) then [heartbeat os] else []) ++ t') r
  | IO t (Raise e) => iteration self interval os = IO [] (Raise e)
  end.
Proof.
  pose proof (monitor_once_cases self os) as H. unfold iteration.
  destruct (monitor_once self os) as [t [[[metrics alerts] report]|e]].
  - destruct alerts; simpl; destruct (sleep interval); simpl;
      rewrite <- ?app_assoc; reflexivity.
  - subst t. reflexivity.
Qed.

End loop_more.

(** X10: a pass through the loop body whose cycle succeeds outputs the
    events of the cycle, then the heartbeat line when the cycle gave no
    alert, then waits; the heartbeat is among the events of the pass
    exactly when the alert list is empty.  A cycle that raises ends the
    pass with its exception and no output. *)
Theorem heartbeat_iff_no_alerts self interval os :
  0 <= interval ->
  match monitor_once self os with
  | IO t (Ok (metrics, alerts, report)) =>
      iteration self interval os =
        IO (t ++ (if bool_decide (alerts = []) then [heartbeat os] else []) ++
            [Sleep interval]) (Ok tt) /\
      (heartbeat os ∈ cycle_events self interval os <-> alerts = [])
  | IO t (Raise e) => iteration self interval os = IO [] (Raise e)
  end.
Proof.
  intros Hint. pose proof (iteration_cases self interval os) as Hit.
  pose proof (monitor_once_cases self os) as Hm.
  destruct (monitor_once self os) as [t [[[metrics alerts] report]|e]]; [|exact Hit].
  unfold sleep in Hit. destruct (Z.ltb_spec interval 0) as [|_]; [lia|].
  simpl in Hit. split; [exact Hit|]. unfold cycle_events. rewrite Hit. simpl.
  destruct Hm as (_ & _ & ->). rewrite elem_of_app.
  case_bool_decide as Ha.
  - split; [auto|]. intros _. right. simpl. left.
  - split; [|tauto]. intros [H|H].
    + now apply heartbeat_not_alert_event in H.
    + simpl in H. apply list_elem_of_singleton in H. discriminate H.
Qed.

Lemma heartbeat_iff_no_alerts_witness :
  match monitor_once default_monitor quiet_os with
  | IO t (Ok (metrics, alerts, report)) =>
      iteration default_monitor 60 quiet_os =
        IO (t ++ (if bool_decide (alerts = []) then [heartbeat quiet_os] else []) ++
            [Sleep 60]) (Ok tt) /\
      (heartbeat quiet_os ∈ cycle_events default_monitor 60 quiet_os <-> alerts = [])
  | IO t (Raise e) => iteration default_monitor 60 quiet_os = IO [] (Raise e)
  end.
Proof. apply (heartbeat_iff_no_alerts default_monitor 60 quiet_os). lia. Defined.

Section loop_failure.

Variable self : SystemHealthMonitor.
Variable interval : Z.
Variable env : nat -> Provider.

Lemma iteration_raise os e :
  io_result (monitor_once self os) = Raise e ->
  iteration self interval os = IO [] (Raise e).
Proof.
  intros H. pose proof (iteration_cases self interval os) as Hit.
  destruct (monitor_once self os) as [t [[[metrics alerts] report]|e']];
    simpl in H; [discriminate H|]. now injection H as <-.
Qed.

Lemma run_loop_failure n : forall i completed steps e,
  0 <= interval ->
  (forall k, (k < n)%nat ->
     exists v, io_result (monitor_once self (env (i + k))) = Ok v) ->
  io_result (monitor_once self (env (i + n))) = Raise e ->
  (n < completed)%nat ->
  run_loop self interval env i completed steps =
  IO (k ← seq i n; cycle_events self interval (env k)) (Raise e).
Proof.
  induction n as [|n IH]; intros i completed steps e Hint Hok He Hlt;
    (destruct completed as [|c]; [lia|]); simpl run_loop.
  - rewrite Nat.add_0_r in He. now rewrite (iteration_raise _ _ He).
  - destruct (Hok 0%nat) as [v Hv]; [lia|]. rewrite Nat.add_0_r in Hv.
    destruct (iteration_ok self interval Hint _ _ Hv) as [outputs Hit].
    rewrite Hit, (IH (S i) c steps e); try assumption; try lia.
    + simpl seq. rewrite bind_cons. unfold cycle_events at 2. rewrite Hit.
      simpl. reflexivity.
    + intros k Hk. replace (S i + k)%nat with (i + S k)%nat by lia.
      apply Hok. lia.
    + now replace (S i + n)%nat with (i + S n)%nat by lia.
Qed.

End loop_failure.

(** X11: an exception of a cycle other than the stop request is not
    caught by the loop: when cycle [n] raises before the stop request
    arrives, [monitor_continuous] ends with that exception after the
    output of the [n] cycles before it, without a stop notice. *)
Theorem failing_cycle_ends_loop self interval env n completed steps e :
  0 <= interval ->
  (forall i, (i < n)%nat -> exists v, io_result (monitor_once self (env i)) = Ok v) ->
  io_result (monitor_once self (env n)) = Raise e ->
  e <> KeyboardInterrupt ->
  (n < completed)%nat ->
  monitor_continuous self interval env completed steps =
    IO (start_events self interval ++ completed_cycles self interval env n) (Raise e).
Proof.
  intros Hint Hok He Hne Hlt. unfold monitor_continuous.
  rewrite (run_loop_failure self interval env n 0 completed steps e) by assumption.
  unfold try_except_KeyboardInterrupt, completed_cycles.
  destruct e; try reflexivity. now destruct Hne.
Qed.

Lemma failing_cycle_ends_loop_witness :
  monitor_continuous default_monitor 60 failing_env 2 0 =
    IO (start_events default_monitor 60 ++
        completed_cycles default_monitor 60 failing_env 1) (Raise OSError).
Proof.
  apply (failing_cycle_ends_loop default_monitor 60 failing_env 1 2 0 OSError).
  - lia.
  - intros i Hi. assert (i = 0%nat) as -> by lia. eexists. vm_compute. reflexivity.
  - vm_compute. reflexivity.
  - discriminate.
  - lia.
Defined.

(** X12: with a negative interval (of a length the conversion of
    [time.sleep] accepts) the first cycle still runs and reports; the
    wait then raises [ValueError], which the loop does not catch: no wait
    happens, no second cycle, no stop notice. *)
Theorem negative_interval_value_error self interval env completed steps :
  - 9223372036 <= interval < 0 ->
  (1 <= completed)%nat ->
  cycles_ok self env 0 ->
  match monitor_once self (env 0%nat) with
  | IO t (Ok (metrics, alerts, report)) =>
      monitor_continuous self interval env completed steps =
      IO (start_events self interval ++ t ++
          (if bool_decide (alerts = []) then [heartbeat (env 0%nat)] else []))
         (Raise ValueError)
  | IO t (Raise e) => False
  end.
Proof.
  intros Hint Hc Hok. destruct (Hok 0%nat) as [v Hv]; [lia|].
  pose proof (iteration_cases self interval (env 0%nat)) as Hit.
  destruct (monitor_once self (env 0%nat)) as [t [[[metrics alerts] report]|e]];
    [|discriminate Hv].
  unfold sleep in Hit. destruct (Z.ltb_spec interval 0) as [_|]; [|lia].
  simpl in Hit. unfold monitor_continuous.
  destruct completed as [|c]; [lia|]. simpl run_loop. rewrite Hit. simpl.
  now rewrite app_nil_r.
Qed.

Lemma negative_interval_value_error_witness :
  match monitor_once default_monitor quiet_os with
  | IO t (Ok (metrics, alerts, report)) =>
      monitor_continuous default_monitor (-1) (fun _ => quiet_os) 1 0 =
      IO (start_events default_monitor (-1) ++ t ++
          (if bool_decide (alerts = []) then [heartbeat quiet_os] else []))
         (Raise ValueError)
  | IO t (Raise e) => False
  end.
Proof.
  apply (negative_interval_value_error default_monitor (-1) (fun _ => quiet_os) 1 0).
  - lia.
  - lia.
  - intros i _. eexists. vm_compute. reflexivity.
Defined.

Section healthy_machine.

Variable self : SystemHealthMonitor.
Variables tc tm td tp : value.
Hypothesis numeric : numeric_thresholds self tc tm td tp.

Lemma disk_part_length metrics t :
  (length (disk_part metrics t) <= length (m_disk metrics))%nat.
Proof.
  unfold disk_part. induction (m_disk metrics) as [|md l IH]; [reflexivity|].
  rewrite bind_cons, length_app.
  assert (length (if exceeds (PyFloat (disk_percent md.2)) t
                  then [disk_alert md.1 (disk_percent md.2) t] else []) <= 1)%nat
    by (destruct (exceeds _ _); simpl; lia).
  cbn [length]. lia.
Qed.

Lemma alerts_length metrics alerts :
  check_thresholds self metrics = Ok alerts ->
  (length alerts <= 3 + length (m_disk metrics))%nat.
Proof.
  rewrite (check_thresholds_parts _ _ _ _ _ numeric). intros [= <-].
  rewrite !length_app. pose proof (disk_part_length metrics td).
  unfold cpu_part, memory_part, process_part.
  destruct (exceeds (PyFloat (m_cpu_percent metrics)) tc),
           (exceeds (PyFloat (mem_percent (m_memory metrics))) tm),
           (exceeds (PyInt (m_process_count metrics)) tp); simpl; lia.
Qed.

Lemma healthy_cycle os :
  healthy os ->
  exists memory disk alerts,
    get_memory_usage os = Ok memory /\
    get_disk_usage os = Ok disk /\
    (length disk <= length (disk_partitions os))%nat /\
    let metrics :=
      {| m_cpu_percent := get_cpu_usage os; m_memory := memory; m_disk := disk;
         m_process_count := get_process_count os;
         m_top_processes := get_top_processes os 5 |} in
    check_thresholds self metrics = Ok alerts /\
    monitor_once self os =
      IO ((alerts ≫= alert_events) ++ [Log INFO "System health check completed"])
         (Ok (metrics, alerts, generate_report (now_report os) metrics)).
Proof.
  intros [Hu Ht Ha Hd].
  assert (Hmem : exists memory, get_memory_usage os = Ok memory).
  { unfold get_memory_usage.
    destruct (bytes_to_gb_ok _ Hu) as [gu ->], (bytes_to_gb_ok _ Ht) as [gt ->],
      (bytes_to_gb_ok _ Ha) as [ga ->]. simpl. eauto. }
  destruct Hmem as [memory Hmem].
  destruct (get_disk_usage_loop os (disk_partitions os) []) as (d & Hdisk & [Hnd _] & Hkeys).
  { exact Hd. }
  { split; [constructor | intros m e []%elem_of_nil]. }
  fold (get_disk_usage os) in Hdisk.
  assert (Hlen : (length d <= length (disk_partitions os))%nat).
  { rewrite <- (length_fmap fst d). apply submseteq_length, NoDup_submseteq; [exact Hnd|].
    intros m [[]%elem_of_nil|[? _]]%Hkeys. assumption. }
  pose proof (check_thresholds_parts _ _ _ _ _ numeric
    {| m_cpu_percent := get_cpu_usage os; m_memory := memory; m_disk := d;
       m_process_count := get_process_count os;
       m_top_processes := get_top_processes os 5 |}) as Hc.
  eexists memory, d, _. split; [exact Hmem|]. split; [exact Hdisk|].
  split; [exact Hlen|]. split; [exact Hc|].
  unfold monitor_once. rewrite Hmem, Hdisk. simpl. rewrite Hc. simpl.
  rewrite dispatch_events. reflexivity.
Qed.

End healthy_machine.

(** X13: with numeric thresholds, on a machine whose memory sizes are
    byte counts and whose mounts are readable with a non-zero size or
    refused, a cycle does not raise.  Its snapshot holds the readings of
    the collectors, at most five top processes, all of them readable, and
    its alerts are at most three plus one per partition. *)
Theorem monitor_once_healthy self tc tm td tp os :
  numeric_thresholds self tc tm td tp ->
  healthy os ->
  exists metrics alerts report,
    monitor_once self os =
      IO ((alerts ≫= alert_events) ++ [Log INFO "System health check completed"])
         (Ok (metrics, alerts, report)) /\
    m_cpu_percent metrics = cpu_sample os /\
    get_memory_usage os = Ok (m_memory metrics) /\
    get_disk_usage os = Ok (m_disk metrics) /\
    m_process_count metrics = Z.of_nat (length (pids os)) /\
    (length (m_top_processes metrics) <= 5)%nat /\
    (forall p, p ∈ m_top_processes metrics -> p ∈ readable_processes os) /\
    check_thresholds self metrics = Ok alerts /\
    (length alerts <= 3 + length (disk_partitions os))%nat /\
    report = generate_report (now_report os) metrics.
Proof.
  intros Hn Hos.
  destruct (healthy_cycle self tc tm td tp Hn os Hos)
    as (memory & disk & alerts & Hmem & Hdisk & Hlen & Hc & Hrun).
  eexists _, alerts, _. split; [exact Hrun|]. simpl.
  repeat split; try assumption; try reflexivity.
  - rewrite get_top_processes_unfold. unfold slice_to. simpl.
    rewrite length_take. lia.
  - intros p Hp. rewrite get_top_processes_unfold in Hp. unfold slice_to in Hp.
    simpl in Hp. rewrite <- (sorted_reverse_perm sort_key).
    apply elem_of_take in Hp as (i & Hi & _).
    eapply list_elem_of_lookup_2; eassumption.
  - pose proof (alerts_length self tc tm td tp Hn _ _ Hc) as H. simpl in H. lia.
Qed.

Lemma monitor_once_healthy_witness :
  exists metrics alerts report,
    monitor_once default_monitor sample_os =
      IO ((alerts ≫= alert_events) ++ [Log INFO "System health check completed"])
         (Ok (metrics, alerts, report)) /\
    m_cpu_percent metrics = cpu_sample sample_os /\
    get_memory_usage sample_os = Ok (m_memory metrics) /\
    get_disk_usage sample_os = Ok (m_disk metrics) /\
    m_process_count metrics = Z.of_nat (length (pids sample_os)) /\
    (length (m_top_processes metrics) <= 5)%nat /\
    (forall p, p ∈ m_top_processes metrics -> p ∈ readable_processes sample_os) /\
    check_thresholds default_monitor metrics = Ok alerts /\
    (length alerts <= 3 + length (disk_partitions sample_os))%nat /\
    report = generate_report (now_report sample_os) metrics.
Proof.
  apply (monitor_once_healthy default_monitor (PyFloat f80) (PyFloat f85)
           (PyFloat f90) (PyInt 300) sample_os).
  - exact default_monitor_numeric.
  - split; try (unfold byte_count; simpl; lia).
    intros m _. simpl. destruct (String.eqb m "/"); [right|now left].
    eexists. split; [reflexivity|]. split; unfold byte_count; simpl; lia.
Defined.

Section sleeps.

Variable self : SystemHealthMonitor.
Variable interval : Z.

Lemma filter_sleep_alerts (alerts : list string) :
  filter is_sleep ((alerts ≫= alert_events) ++
                   [Log INFO "System health check completed"]) = [].
Proof.
  induction alerts as [|a alerts IH]; [reflexivity|].
  rewrite bind_cons. exact IH.
Qed.

Lemma monitor_once_no_sleep os :
  filter is_sleep (io_trace (monitor_once self os)) = [].
Proof.
  pose proof (monitor_once_cases self os) as H.
  destruct (monitor_once self os) as [t [[[metrics alerts] report]|e]]; simpl.
  - destruct H as (_ & _ & ->). apply filter_sleep_alerts.
  - now subst t.
Qed.

Lemma cycle_one_sleep os v :
  0 <= interval ->
  io_result (monitor_once self os) = Ok v ->
  filter is_sleep (cycle_events self interval os) = [Sleep interval].
Proof.
  intros Hint Hv. pose proof (iteration_cases self interval os) as Hit.
  pose proof (monitor_once_no_sleep os) as Hns. unfold cycle_events.
  destruct (monitor_once self os) as [t [[[metrics alerts] report]|e]];
    [|discriminate Hv].
  unfold sleep in Hit. destruct (Z.ltb_spec interval 0) as [|_]; [lia|].
  simpl in Hit, Hns. rewrite Hit. simpl. rewrite !filter_app, Hns.
  now case_bool_decide.
Qed.

Lemma completed_cycles_sleeps (env : nat -> Provider) n : forall i : nat,
  0 <= interval ->
  (forall k, (k < n)%nat ->
     exists v, io_result (monitor_once self (env (i + k)%nat)) = Ok v) ->
  filter is_sleep (k ← seq i n; cycle_events self interval (env k)) =
  replicate n (Sleep interval).
Proof.
  induction n as [|n IH]; intros i Hint Hok; [reflexivity|].
  simpl seq. rewrite bind_cons, filter_app.
  destruct (Hok 0%nat) as [v Hv]; [lia|]. rewrite Nat.add_0_r in Hv.
  rewrite (cycle_one_sleep _ _ Hint Hv), IH; [reflexivity|assumption|].
  intros k Hk. replace (S i + k)%nat with (i + S k)%nat by lia. apply Hok. lia.
Qed.

End sleeps.

(** X14: with numeric thresholds, a machine that stays healthy and an
    interval that is not negative, the continuous loop can only end by
    the stop request, and then returns normally; every completed cycle
    ends with its one wait, so the waits of [completed] cycles are
    [completed] many. *)
Theorem healthy_loop_ends_by_stop self tc tm td tp interval env completed steps :
  numeric_thresholds self tc tm td tp ->
  (forall i, healthy (env i)) ->
  0 <= interval ->
  monitor_continuous self interval env completed steps =
    IO (start_events self interval ++ completed_cycles self interval env completed ++
        take steps (cycle_events self interval (env completed)) ++ stop_events)
       (Ok tt) /\
  filter is_sleep (completed_cycles self interval env completed) =
    replicate completed (Sleep interval) /\
  forall i, exists outputs,
    cycle_events self interval (env i) = outputs ++ [Sleep interval] /\
    filter is_sleep outputs = [].
Proof.
  intros Hn Hos Hint.
  assert (Hok : forall i, exists v, io_result (monitor_once self (env i)) = Ok v).
  { intros i.
    destruct (healthy_cycle self tc tm td tp Hn (env i) (Hos i))
      as (memory & disk & alerts & _ & _ & _ & _ & Hrun).
    rewrite Hrun. eauto. }
  split; [|split].
  - apply monitor_continuous_trace; [assumption|]. intros i _. apply Hok.
  - apply completed_cycles_sleeps; [assumption|]. intros k _. apply Hok.
  - intros i. destruct (Hok i) as [v Hv].
    pose proof (cycle_one_sleep self interval _ _ Hint Hv) as Hone.
    destruct (iteration_ok self interval Hint _ _ Hv) as [outputs Hit].
    exists outputs. unfold cycle_events in *. rewrite Hit in Hone |- *.
    split; [reflexivity|]. simpl in Hone. rewrite filter_app in Hone.
    change (filter is_sleep [Sleep interval]) with [Sleep interval] in Hone.
    destruct (filter is_sleep outputs); [reflexivity|].
    simpl in Hone. injection Hone as _ Hone. now destruct l.
Qed.

Lemma healthy_loop_ends_by_stop_witness :
  monitor_continuous default_monitor 60 (fun _ => sample_os) 2 1 =
    IO (start_events default_monitor 60 ++
        completed_cycles default_monitor 60 (fun _ => sample_os) 2 ++
        take 1 (cycle_events default_monitor 60 sample_os) ++ stop_events)
       (Ok tt) /\
  filter is_sleep (completed_cycles default_monitor 60 (fun _ => sample_os) 2) =
    replicate 2 (Sleep 60) /\
  forall i : nat, exists outputs,
    cycle_events default_monitor 60 sample_os = outputs ++ [Sleep 60] /\
    filter is_sleep outputs = [].
Proof.
  apply (healthy_loop_ends_by_stop default_monitor (PyFloat f80) (PyFloat f85)
           (PyFloat f90) (PyInt 300) 60 (fun _ => sample_os) 2 1).
  - exact default_monitor_numeric.
  - intros _. split; try (unfold byte_count; simpl; lia).
    intros m _. simpl. destruct (String.eqb m "/"); [right|now left].
    eexists. split; [reflexivity|]. split; unfold byte_count; simpl; lia.
  - lia.
Defined.

(** X15: with [--once] or [--report] (also [--report] alone) [main]
    runs one cycle: its output is the output of that cycle, followed by
    the report of the cycle's snapshot when [--report] is given; an
    exception of the cycle leaves [main].  It never waits, and logs or
    prints none of the start and stop lines of the continuous mode. *)
Theorem main_single_shot args cf env completed steps monitor :
  arg_once args || arg_report args = true ->
  __init__ cf = Ok monitor ->
  match monitor_once monitor (env 0%nat) with
  | IO t (Ok (metrics, alerts, report)) =>
      main args cf env completed steps =
        IO (t ++ (if arg_report args then [Print report] else [])) (Ok tt) /\
      report = generate_report (now_report (env 0%nat)) metrics
  | IO t (Raise e) => main args cf env completed steps = IO [] (Raise e)
  end /\
  filter is_sleep (io_trace (main args cf env completed steps)) = [] /\
  (forall e, e ∈ start_events monitor (arg_interval args) ++ stop_events ->
             e ∉ io_trace (main args cf env completed steps)).
Proof.
  intros Hmode Hinit.
  pose proof (monitor_once_cases monitor (env 0%nat)) as Hm.
  pose proof (monitor_once_no_sleep monitor (env 0%nat)) as Hns.
  unfold main. rewrite Hinit. simpl. rewrite Hmode.
  destruct (monitor_once monitor (env 0%nat)) as [t [[[metrics alerts] report]|e]].
  - destruct Hm as (_ & Hr & Ht). simpl in Hns.
    assert (Hrun :
      ('(_, _, report) ← IO t (Ok (metrics, alerts, report));
       if arg_report args then emit (Print report) else mret tt) =
      IO (t ++ (if arg_report args then [Print report] else [])) (Ok tt))
      by (destruct (arg_report args); reflexivity).
    rewrite Hrun. simpl. split; [auto|]. split.
    + rewrite filter_app, Hns. now destruct (arg_report args).
    + intros ev Hev Hin. rewrite elem_of_app in Hin. destruct Hin as [Hin|Hin].
      * subst t. rewrite elem_of_app, list_elem_of_bind in Hin.
        destruct Hin as [(a & Ha & _)|Hin].
        -- unfold alert_events in Ha. rewrite !elem_of_cons, elem_of_nil in Ha.
           unfold start_events, stop_events in Hev. simpl in Hev.
           rewrite !elem_of_cons, elem_of_nil in Hev.
           destruct Ha as [->|[->|[]]];
             destruct Hev as [H|[H|[H|[H|[]]]]]; discriminate H.
        -- apply list_elem_of_singleton in Hin. subst ev.
           unfold start_events, stop_events in Hev. simpl in Hev.
           rewrite !elem_of_cons, elem_of_nil in Hev.
           destruct Hev as [H|[H|[H|[H|[]]]]]; discriminate H.
      * destruct (arg_report args); [|now apply elem_of_nil in Hin].
        apply list_elem_of_singleton in Hin. subst ev report.
        unfold start_events, stop_events in Hev. simpl in Hev.
        rewrite !elem_of_cons, elem_of_nil in Hev.
        destruct Hev as [H|[H|[H|[H|[]]]]]; try discriminate H.
        rewrite generate_report_split in H. discriminate H.
  - subst t. simpl. split; [reflexivity|]. split; [reflexivity|].
    intros ev _ []%elem_of_nil.
Qed.

Lemma main_single_shot_witness :
  match monitor_once default_monitor sample_os with
  | IO t (Ok (metrics, alerts, report)) =>
      main report_args NoFile (fun _ => sample_os) 0 0 =
        IO (t ++ (if arg_report report_args then [Print report] else [])) (Ok tt) /\
      report = generate_report (now_report sample_os) metrics
  | IO t (Raise e) => main report_args NoFile (fun _ => sample_os) 0 0 = IO [] (Raise e)
  end /\
  filter is_sleep (io_trace (main report_args NoFile (fun _ => sample_os) 0 0)) = [] /\
  (forall e, e ∈ start_events default_monitor (arg_interval report_args) ++ stop_events ->
             e ∉ io_trace (main report_args NoFile (fun _ => sample_os) 0 0)).
Proof.
  apply (main_single_shot report_args NoFile (fun _ => sample_os) 0 0 default_monitor);
    reflexivity.
Defined.

Section report_more.

Lemma contains_prefix (a s xs : string) :
  contains s xs -> contains (a +:+ s) xs.
Proof.
  intros (pre & post & ->). exists (a +:+ pre), post.
  now rewrite !append_assoc.
Qed.

Lemma contains_here (xs post : string) : contains (xs +:+ post) xs.
Proof. exists "", post. reflexivity. Qed.

Lemma contains_concat_lines {A : Type} (line : A -> string) (l : list A) (x : A) :
  x ∈ l -> contains (concat_lines line l) (line x).
Proof.
  induction l as [|y l IH]; [intros []%elem_of_nil|].
  intros [->|Hin]%elem_of_cons; simpl.
  - apply contains_here.
  - now apply contains_prefix, IH.
Qed.

End report_more.

(** X16: the report shows the line of every entry of the snapshot's
    disk map and of every top process, and the line of the process count
    right before the heading of the process list. *)
Theorem generate_report_lists_entries now metrics :
  (forall mount d, (mount, d) ∈ m_disk metrics ->
     contains (generate_report now metrics) (disk_line mount d)) /\
  (forall p, p ∈ m_top_processes metrics ->
     contains (generate_report now metrics) (process_line p)) /\
  contains (generate_report now metrics)
    (LF +:+ LF +:+ "Running Processes: " +:+ int_str (m_process_count metrics) +:+
     LF +:+ LF +:+ "Top 5 Processes by CPU:").
Proof.
  rewrite generate_report_split. unfold report_body. split; [|split].
  - intros mount d Hin.
    apply (contains_concat_lines (fun md : string * DiskStats => disk_line md.1 md.2))
      in Hin as (pre & post & Hin).
    rewrite Hin. cbn [fst snd]. rewrite !append_assoc.
    do 19 apply contains_prefix. apply contains_here.
  - intros p Hin.
    apply (contains_concat_lines process_line) in Hin as (pre & post & Hin).
    rewrite Hin. do 27 apply contains_prefix. apply contains_here.
  - do 19 apply contains_prefix.
    exists "", (concat_lines process_line (m_top_processes metrics)).
    now rewrite !append_assoc.
Qed.

(** X17: a larger limit extends the selection: for limits that are not
    negative, the selection under the smaller limit is the front of the
    selection under the larger one; from a limit of the number of
    readable processes on, the selection is a rearrangement of all of
    them and stays the same. *)
Theorem get_top_processes_limit_monotone os limit limit' :
  0 <= limit <= limit' ->
  get_top_processes os limit = take (Z.to_nat limit) (get_top_processes os limit') /\
  (Z.of_nat (length (readable_processes os)) <= limit ->
   get_top_processes os limit ≡ₚ readable_processes os /\
   get_top_processes os limit' = get_top_processes os limit).
Proof.
  intros [H0 Hle]. rewrite !get_top_processes_unfold. unfold slice_to.
  destruct (Z.leb_spec 0 limit) as [_|]; [|lia].
  destruct (Z.leb_spec 0 limit') as [_|]; [|lia].
  pose proof (Permutation_length (sorted_reverse_perm sort_key (readable_processes os)))
    as Hlen.
  split.
  - rewrite take_take. f_equal. lia.
  - intros Hall. rewrite !take_ge by lia. split; [apply sorted_reverse_perm|reflexivity].
Qed.

Lemma get_top_processes_limit_monotone_witness :
  get_top_processes three_process_os 3 =
    take (Z.to_nat 3) (get_top_processes three_process_os 5) /\
  (Z.of_nat (length (readable_processes three_process_os)) <= 3 ->
   get_top_processes three_process_os 3 ≡ₚ readable_processes three_process_os /\
   get_top_processes three_process_os 5 = get_top_processes three_process_os 3).
Proof.
  apply (get_top_processes_limit_monotone three_process_os 3 5). lia.
Defined.
